(** * oggm_3dviz.tools.map_annotations

    A shallow embedding of [map_annotations.py]: the four annotation
    classes ([PointAnnotation], [ArrowAnnotation], [OutlineAnnotation],
    [LegendAnnotation]), their constructors and their [add_annotation]
    methods, followed by the properties the specification states about
    them.

    Python floats are IEEE binary64 numbers and are embedded as Rocq's
    primitive floats, whose operations are the same binary64 operations.
    Mutable Python objects that the module shares with its caller (keyword
    dictionaries, label lists, the terrain mesh) live in an explicit heap
    and are passed by reference. *)

From Stdlib Require Import ZArith Floats String List.
From Stdlib.Strings Require Import Byte.
From stdpp Require Import base gmap strings list fin_maps.

Set Warnings "-inexact-float,-register-all".

(** ** Python values and the object heap *)

(** References to heap objects. *)
Definition loc := positive.

(** A canonical colour: four bytes, as [check_color] returns them. *)
Record RGBA := mkRGBA { red : byte; green : byte; blue : byte; alpha : byte }.

Definition channels (c : RGBA) : list byte := [red c; green c; blue c; alpha c].

(** Values that are passed around: scalars, tuples and the list literals
    nobody writes to by value, mutable objects of a caller by reference. *)
Inductive value :=
| VNone
| VBool (b : bool)
| VInt (z : Z)
| VFloat (f : float)
| VStr (s : string)
| VRGBA (c : RGBA)
| VSeq (vs : list value)
| VRef (l : loc).

(** Modelled from the spec: the terrain mesh of [viz.Glacier3DViz], a
    precomputed surface over a grid of a given shape. The flag records the
    state a draw call sets on the mesh it is handed (for instance its
    active texture coordinates). *)
Record Mesh := mkMesh {
  dimensions : list nat;
  points : list (list float);
  active_texture : bool
}.

(** [pv.Texture], as [pv.numpy_to_texture] wraps a uint8 array: the array's
    shape and its bytes in row-major order. *)
Record Texture := mkTexture { tex_shape : list nat; tex_data : list byte }.

Inductive obj :=
| OList (vs : list value)
| ODict (d : gmap string value)
| OMesh (m : Mesh).

(** The calls received by the plotting surface ([pv.Plotter]). A call made
    with [**d] receives the contents of [d] at the time of the call. *)
Inductive DrawCall :=
| add_point_labels (pts : list (list float)) (labels : list string)
                   (kwargs : gmap string value)
| add_arrows (cent direction : list (list float)) (mag : float)
             (kwargs : gmap string value)
| add_mesh (mesh : loc) (texture : Texture)
| add_legend (labels : value) (kwargs : gmap string value).

Record World := mkWorld { heap : gmap loc obj; scene : list DrawCall }.

(** ** Exceptions, and the two monads of the embedding *)

Inductive exn :=
| KeyError (key : string)
| ValueError
| TypeError
| AttributeError
| IndexError
| CRSError
| NotImplementedError.

Inductive result (A : Type) :=
| Ok (a : A)
| Raise (e : exn).
Arguments Ok {A} a.
Arguments Raise {A} e.

Definition rbind {A B} (m : result A) (k : A -> result B) : result B :=
  match m with
  | Ok a => k a
  | Raise e => Raise e
  end.

(** Code that reads and writes the heap or draws: the world is threaded,
    and an exception keeps the effects made before it. *)
Definition M (A : Type) := World -> World * result A.

Definition ret {A} (a : A) : M A := fun w => (w, Ok a).
Definition raise {A} (e : exn) : M A := fun w => (w, Raise e).
Definition bind {A B} (m : M A) (k : A -> M B) : M B :=
  fun w => match m w with
           | (w', Ok a) => k a w'
           | (w', Raise e) => (w', Raise e)
           end.
Definition lift {A} (r : result A) : M A := fun w => (w, r).

Declare Scope py_scope.
Delimit Scope py_scope with py.
Notation "'let?' x := m 'in' k" := (rbind m (fun x => k))
  (at level 10, x name, m at level 200, k at level 200) : py_scope.
Notation "'let!' x := m 'in' k" := (bind m (fun x => k))
  (at level 10, x name, m at level 200, k at level 200) : py_scope.
Notation "'run' m 'in' k" := (bind m (fun _ => k))
  (at level 10, m at level 200, k at level 200) : py_scope.
Open Scope py_scope.

(** *** Heap operations *)

Definition alloc (o : obj) : M loc := fun w =>
  let l := fresh (dom (heap w)) in
  ({| heap := <[l := o]> (heap w); scene := scene w |}, Ok l).

Definition store (l : loc) (o : obj) : M unit := fun w =>
  ({| heap := <[l := o]> (heap w); scene := scene w |}, Ok tt).

(** [d.setdefault(k, v)] on a dict held by value: a key that is present
    keeps its value. *)
Definition dict_setdefault (k : string) (v : value) (d : gmap string value)
  : gmap string value :=
  match d !! k with
  | Some _ => d
  | None => <[k := v]> d
  end.

(** [d.setdefault(k, v)] on the object at [l]; only a dict has the method. *)
Definition setdefault (l : loc) (k : string) (v : value) : M unit := fun w =>
  match heap w !! l with
  | Some (ODict d) => store l (ODict (dict_setdefault k v d)) w
  | _ => (w, Raise AttributeError)
  end.

(** The mapping that [**d] unpacks; anything but a dict is a [TypeError]. *)
Definition unpack (l : loc) : M (gmap string value) := fun w =>
  match heap w !! l with
  | Some (ODict d) => (w, Ok d)
  | _ => (w, Raise TypeError)
  end.

(** A call [f(k1=.., k2=.., **d)]: a key of [d] that repeats an explicit
    keyword is a [TypeError] raised before [f] runs. *)
Definition keywords (explicit : list string) (d : gmap string value)
  : M (gmap string value) :=
  if forallb (fun k => bool_decide (d !! k = None)) explicit
  then ret d else raise TypeError.

Definition draw (c : DrawCall) : M unit := fun w =>
  ({| heap := heap w; scene := scene w ++ [c] |}, Ok tt).

Definition the {A} (o : option A) : M A :=
  match o with
  | Some a => ret a
  | None => raise TypeError
  end.

(** ** numpy arrays of shape (1, 3) and their element-wise arithmetic *)

Definition arr_add (a b : list (list float)) : list (list float) :=
  zip_with (zip_with PrimFloat.add) a b.

Definition arr_scale (a : list (list float)) (s : float) : list (list float) :=
  map (map (fun v => (v * s)%float)) a.

(** ** The visualization context ([viz.Glacier3DViz]) *)

(** An [xarray.DataArray] of floats: its shape and its values in row-major
    order. Integer and boolean fields are held as the floats they equal. *)
Module DataArray.
Record t := mk { shape : list nat; data : list float }.

(** A well-formed array has as many values as its shape says. *)
Definition wf (a : t) : Prop := length (data a) = foldr Nat.mul 1 (shape a).

Definition fmin (a b : float) : float := if (b <? a)%float then b else a.
Definition fmax (a b : float) : float := if (a <? b)%float then b else a.

(** A reduction over all values. xarray skips NaN in float data; the
    result is NaN when every value is NaN, and an empty array has no
    minimum or maximum. *)
Definition reduce (op : float -> float -> float) (a : t) : result float :=
  match data a with
  | [] => Raise ValueError
  | _ :: _ =>
      match List.filter (fun v => negb (is_nan v)) (data a) with
      | [] => Ok nan
      | v :: vs => Ok (fold_left op vs v)
      end
  end.

Definition min : t -> result float := reduce fmin.
Definition max : t -> result float := reduce fmax.
End DataArray.

(** Modelled from the spec: the dataset of the context, with named
    coordinate, elevation and mask fields, and the projection descriptor
    among its attributes. *)
Module Dataset.
Record t := mk {
  data_vars : gmap string DataArray.t;
  attrs : gmap string string
}.

(** [dataset[name]] *)
Definition getitem (ds : t) (name : string) : result DataArray.t :=
  match data_vars ds !! name with
  | Some a => Ok a
  | None => Raise (KeyError name)
  end.

(** [dataset.pyproj_srs] *)
Definition pyproj_srs (ds : t) : result string :=
  match attrs ds !! "pyproj_srs" with
  | Some s => Ok s
  | None => Raise AttributeError
  end.
End Dataset.

(** Modelled from the spec: the shared visualization context, which names
    the x, y and bedrock-elevation fields of its dataset and refers to the
    precomputed terrain mesh. *)
Module Glacier3DViz.
Record t := mk {
  dataset : Dataset.t;
  x : string;
  y : string;
  topo_bedrock : string;
  topo_mesh : loc
}.
End Glacier3DViz.

(** ** MapAnnotation: the base class *)

Module MapAnnotation.
Definition add_annotation (glacier_3dviz : Glacier3DViz.t) : M unit :=
  raise NotImplementedError.
End MapAnnotation.

(** ** ArrowAnnotation *)

Module ArrowAnnotation.
Record t := mk {
  x_position : float;
  y_position : float;
  z_position : float;
  text : string;
  text_position : float;
  arrow_cent : option (list (list float));
  arrow_direction : list (list float);
  arrow_magnitude_relative : float;
  arrow_magnitude : option float;
  arrow_kwargs : loc;
  text_kwargs : loc
}.

(** The defaults of the signature. *)
Definition default_x_position : float := 1.05.
Definition default_y_position : float := 0.5.
Definition default_z_position : float := 0.5.
Definition default_x_direction : float := 0.
Definition default_y_direction : float := 1.
Definition default_z_direction : float := 0.
Definition default_arrow_magnitude : float := 0.2.
Definition default_text : string := "N".
Definition default_text_position : float := 1.3.

Definition __init__
    (x_position y_position z_position : float)
    (x_direction y_direction z_direction : float)
    (arrow_magnitude : float) (text : string) (text_position : float)
    (arrow_kwargs text_kwargs : option loc) : M t :=
  (* set some default kwargs for the arrow *)
  let! arrow_kwargs :=
    match arrow_kwargs with
    | None => alloc (ODict ∅)
    | Some d => ret d
    end in
  run setdefault arrow_kwargs "show_scalar_bar" (VBool false) in
  run setdefault arrow_kwargs "color"
        (VSeq [VFloat 0.2; VFloat 0.2; VFloat 0.2]) in
  (* set some default kwargs for the text *)
  let! text_kwargs :=
    match text_kwargs with
    | None => alloc (ODict ∅)
    | Some d => ret d
    end in
  run setdefault text_kwargs "shape" VNone in
  run setdefault text_kwargs "show_points" (VBool false) in
  run setdefault text_kwargs "font_size" (VInt 30) in
  ret {| x_position := x_position;
         y_position := y_position;
         z_position := z_position;
         text := text;
         text_position := text_position;
         arrow_cent := None;
         arrow_direction := [[x_direction; y_direction; z_direction]];
         arrow_magnitude_relative := arrow_magnitude;
         arrow_magnitude := None;
         arrow_kwargs := arrow_kwargs;
         text_kwargs := text_kwargs |}.

Definition get_position (minimum maximum position : float) : float :=
  (minimum + position * (maximum - minimum))%float.

Definition with_arrow_cent (self : t) (c : list (list float)) : t :=
  {| x_position := x_position self;
     y_position := y_position self;
     z_position := z_position self;
     text := text self;
     text_position := text_position self;
     arrow_cent := Some c;
     arrow_direction := arrow_direction self;
     arrow_magnitude_relative := arrow_magnitude_relative self;
     arrow_magnitude := arrow_magnitude self;
     arrow_kwargs := arrow_kwargs self;
     text_kwargs := text_kwargs self |}.

Definition with_arrow_magnitude (self : t) (m : float) : t :=
  {| x_position := x_position self;
     y_position := y_position self;
     z_position := z_position self;
     text := text self;
     text_position := text_position self;
     arrow_cent := arrow_cent self;
     arrow_direction := arrow_direction self;
     arrow_magnitude_relative := arrow_magnitude_relative self;
     arrow_magnitude := Some m;
     arrow_kwargs := arrow_kwargs self;
     text_kwargs := text_kwargs self |}.

(** [self.arrow_cent] is assigned; the updated object is returned. *)
Definition set_arrow_position (self : t) (glacier_3dviz : Glacier3DViz.t)
  : result t :=
  let ds := Glacier3DViz.dataset glacier_3dviz in
  let? xs := Dataset.getitem ds (Glacier3DViz.x glacier_3dviz) in
  let? x_min := DataArray.min xs in
  let? xs := Dataset.getitem ds (Glacier3DViz.x glacier_3dviz) in
  let? x_max := DataArray.max xs in
  let x_cent := get_position x_min x_max (x_position self) in
  let? ys := Dataset.getitem ds (Glacier3DViz.y glacier_3dviz) in
  let? y_min := DataArray.min ys in
  let? ys := Dataset.getitem ds (Glacier3DViz.y glacier_3dviz) in
  let? y_max := DataArray.max ys in
  let y_cent := get_position y_min y_max (y_position self) in
  let? zs := Dataset.getitem ds (Glacier3DViz.topo_bedrock glacier_3dviz) in
  let? z_min := DataArray.min zs in
  let? zs := Dataset.getitem ds (Glacier3DViz.topo_bedrock glacier_3dviz) in
  let? z_max := DataArray.max zs in
  let z_cent := get_position z_min z_max (z_position self) in
  Ok (with_arrow_cent self [[x_cent; y_cent; z_cent]]).

(** [self.arrow_magnitude] is assigned; the updated object is returned. *)
Definition set_arrow_magnitude (self : t) (glacier_3dviz : Glacier3DViz.t)
  : result t :=
  let ds := Glacier3DViz.dataset glacier_3dviz in
  let? ys := Dataset.getitem ds (Glacier3DViz.y glacier_3dviz) in
  let? y_max := DataArray.max ys in
  let? ys := Dataset.getitem ds (Glacier3DViz.y glacier_3dviz) in
  let? y_min := DataArray.min ys in
  Ok (with_arrow_magnitude self
        ((y_max - y_min) * arrow_magnitude_relative self)%float).

(** The point of the text label, from the fields set by the two setters. *)
Definition text_point (cent direction : list (list float))
    (magnitude text_position : float) : list (list float) :=
  arr_add cent (arr_scale (arr_scale direction magnitude) text_position).

Definition add_annotation (self : t) (glacier_3dviz : Glacier3DViz.t)
  : M t :=
  (* define arrow properties depending on the map *)
  let! self := lift (set_arrow_position self glacier_3dviz) in
  let! self := lift (set_arrow_magnitude self glacier_3dviz) in
  let! cent := the (arrow_cent self) in
  let! mag := the (arrow_magnitude self) in
  let! kw := unpack (arrow_kwargs self) in
  let! kw := keywords ["cent"; "direction"; "mag"] kw in
  run draw (add_arrows cent (arrow_direction self) mag kw) in
  let! cent := the (arrow_cent self) in
  let! mag := the (arrow_magnitude self) in
  let pt := text_point cent (arrow_direction self) mag (text_position self) in
  let! kw := unpack (text_kwargs self) in
  run draw (add_point_labels pt [text self] kw) in
  ret self.
End ArrowAnnotation.

(** ** PointAnnotation *)

Module PointAnnotation.
Record t := mk {
  latitude : float;
  longitude : float;
  height : float;
  latitude_proj : option float;
  longitude_proj : option float;
  text : string;
  kwargs : gmap string value
}.

Definition __init__ (latitude longitude height : float) (text : string)
    (kwargs : gmap string value) : t :=
  {| latitude := latitude;
     longitude := longitude;
     height := height;
     latitude_proj := None;
     longitude_proj := None;
     text := text;
     kwargs := kwargs |}.

Section WithProj.
(** [pyproj.Proj]: a projection descriptor gives a transformation, or
    is rejected. *)
Variable Proj : string -> result (float -> float -> float * float).

Definition reproject_coords (self : t) (glacier_3dviz : Glacier3DViz.t)
  : result t :=
  let? srs := Dataset.pyproj_srs (Glacier3DViz.dataset glacier_3dviz) in
  let? target_proj := Proj srs in
  let '(a, b) := target_proj (latitude self) (longitude self) in
  Ok {| latitude := latitude self;
        longitude := longitude self;
        height := height self;
        latitude_proj := Some a;
        longitude_proj := Some b;
        text := text self;
        kwargs := kwargs self |}.

Definition add_annotation (self : t) (glacier_3dviz : Glacier3DViz.t)
  : M t :=
  let! self := lift (reproject_coords self glacier_3dviz) in
  let! a := the (latitude_proj self) in
  let! b := the (longitude_proj self) in
  run draw (add_point_labels [[a; b; height self]] [text self]
              (kwargs self)) in
  ret self.
End WithProj.
End PointAnnotation.

(** ** OutlineAnnotation *)

Module OutlineAnnotation.
Record t := mk {
  outline_data : string;
  outline_color : RGBA;
  outline_texture : option Texture
}.

(** [np.zeros(shape, dtype=np.uint8)], in row-major order. *)
Definition zeros (shape : list nat) : list byte :=
  replicate (foldr Nat.mul 1 shape) x00.

(** [a[mask, :] = c] for an array [a] whose last axis holds the four
    channels: the pixels selected by the mask receive the colour. *)
Fixpoint setitem_mask (a : list byte) (mask : list bool) (c : RGBA)
  : list byte :=
  match mask with
  | [] => a
  | b :: mask' =>
      (if b then channels c else take 4 a)
        ++ setitem_mask (drop 4 a) mask' c
  end.

(** [pv.numpy_to_texture] *)
Definition numpy_to_texture (shape : list nat) (a : list byte) : Texture :=
  {| tex_shape := shape; tex_data := a |}.

Definition set_outline_texture (self : t) (glacier_3dviz : Glacier3DViz.t)
  : result t :=
  (* define the texture *)
  let? outline_mask :=
    Dataset.getitem (Glacier3DViz.dataset glacier_3dviz)
                    (outline_data self) in
  let shape := DataArray.shape outline_mask ++ [4] in
  let outline_texture := zeros shape in
  let outline_texture :=
    setitem_mask outline_texture
      (map (fun v => (v =? 1)%float) (DataArray.data outline_mask))
      (outline_color self) in
  Ok {| outline_data := outline_data self;
        outline_color := outline_color self;
        outline_texture := Some (numpy_to_texture shape outline_texture) |}.

(** [copy.deepcopy] of a mesh: a new object with the same contents. *)
Definition deepcopy (l : loc) : M loc := fun w =>
  match heap w !! l with
  | Some (OMesh m) => alloc (OMesh m) w
  | _ => (w, Raise TypeError)
  end.

Section WithColors.
(** [utils.check_color]: a colour name or sequence gives its RGBA
    bytes, or is rejected. *)
Variable check_color : value -> result RGBA.

Definition __init__ (outline_data : string) (outline_color : value)
  : result t :=
  (* define color *)
  let? c := check_color outline_color in
  Ok {| outline_data := outline_data;
        outline_color := c;
        outline_texture := None |}.
End WithColors.

Definition default_outline_data : string := "glacier_ext".
Definition default_outline_color : value := VStr "black".

Section WithSurface.
(** What [pv.Plotter.add_mesh] does to the mesh object it is handed. *)
Variable mesh_effect : Texture -> Mesh -> Mesh.

(** [plotter.add_mesh(mesh, texture=texture)] *)
Definition plotter_add_mesh (l : loc) (texture : Texture) : M unit :=
  fun w =>
    match heap w !! l with
    | Some (OMesh m) =>
        ({| heap := <[l := OMesh (mesh_effect texture m)]> (heap w);
            scene := scene w ++ [add_mesh l texture] |}, Ok tt)
    | _ => (w, Raise TypeError)
    end.

Definition add_annotation (self : t) (glacier_3dviz : Glacier3DViz.t)
  : M t :=
  let! self := lift (set_outline_texture self glacier_3dviz) in
  let! mesh := deepcopy (Glacier3DViz.topo_mesh glacier_3dviz) in
  let! texture := the (outline_texture self) in
  run plotter_add_mesh mesh texture in
  ret self.
End WithSurface.
End OutlineAnnotation.

(** ** LegendAnnotation *)

Module LegendAnnotation.
Record t := mk {
  labels : value;
  kwargs : gmap string value
}.

Section WithColors.
Variable check_color : value -> result RGBA.

(** The loop body, [label[1] = check_color(label[1])]: the entry is
    read, normalized, and written back into the object [label] refers
    to. Only a list object can be written: a tuple or a string, held by
    value, gives its entry 1 to [check_color] and then refuses the
    assignment. *)
Definition normalize (label : value) : M unit := fun w =>
  match label with
  | VRef l =>
      match heap w !! l with
      | Some (OList vs) =>
          match vs !! 1%nat with
          | Some c =>
              match check_color c with
              | Ok rgba => store l (OList (<[1%nat := VRGBA rgba]> vs)) w
              | Raise e => (w, Raise e)
              end
          | None => (w, Raise IndexError)
          end
      | Some (ODict _) => (w, Raise (KeyError "1"))
      | _ => (w, Raise TypeError)
      end
  | VSeq vs =>
      match vs !! 1%nat with
      | Some c =>
          match check_color c with
          | Ok _ => (w, Raise TypeError)
          | Raise e => (w, Raise e)
          end
      | None => (w, Raise IndexError)
      end
  | VStr s =>
      match String.get 1 s with
      | Some ch =>
          match check_color (VStr (String ch EmptyString)) with
          | Ok _ => (w, Raise TypeError)
          | Raise e => (w, Raise e)
          end
      | None => (w, Raise IndexError)
      end
  | _ => (w, Raise TypeError)
  end.

(** [for label in ...] over a sequence held by value. *)
Fixpoint for_each (ls : list value) : M unit :=
  match ls with
  | [] => ret tt
  | label :: ls => run normalize label in for_each ls
  end.

(** [for label in ...] over the list object at [l]: the iterator reads
    entry [i] of the list as it is when the entry is reached. [n] is
    the number of entries left; item assignment never changes it. *)
Fixpoint for_each_at (l : loc) (i n : nat) : M unit :=
  match n with
  | O => ret tt
  | S n => fun w =>
      match heap w !! l with
      | Some (OList vs) =>
          match vs !! i with
          | Some label =>
              (run normalize label in for_each_at l (S i) n) w
          | None => (w, Ok tt)
          end
      | _ => (w, Raise TypeError)
      end
  end.

(** [for label in self.labels: label[1] = check_color(label[1])]. A list
    object is iterated in place, a tuple or a string by value, and a dict
    by its keys (here in the order of the map, not of insertion); None and
    the scalars are not iterable. *)
Definition check_labels (labels : value) : M unit := fun w =>
  match labels with
  | VRef l =>
      match heap w !! l with
      | Some (OList vs) => for_each_at l 0 (length vs) w
      | Some (ODict d) => for_each (VStr <$> (map_to_list d).*1) w
      | _ => (w, Raise TypeError)
      end
  | VSeq vs => for_each vs w
  | VStr s =>
      for_each ((fun ch => VStr (String ch EmptyString))
                  <$> list_ascii_of_string s) w
  | _ => (w, Raise TypeError)
  end.

Definition __init__ (labels : value) (kwargs : gmap string value) : M t :=
  (* check if colors are valid or given as strings *)
  run check_labels labels in
  (* here setting some defaults for a single entry *)
  let kwargs :=
    dict_setdefault "bcolor" (VSeq [VFloat 0.5; VFloat 0.5; VFloat 0.5])
                    kwargs in
  let kwargs :=
    dict_setdefault "size" (VSeq [VFloat 0.2; VFloat 0.1]) kwargs in
  let kwargs := dict_setdefault "loc" (VStr "lower center") kwargs in
  let kwargs := dict_setdefault "face" (VStr "rectangle") kwargs in
  ret {| labels := labels; kwargs := kwargs |}.
End WithColors.

Definition default_labels : value := VNone.

Definition add_annotation (self : t) (glacier_3dviz : Glacier3DViz.t)
  : M t :=
  let! kw := keywords ["labels"] (kwargs self) in
  run draw (add_legend (labels self) kw) in
  ret self.
End LegendAnnotation.

(** ** The annotations an orchestrator holds, and their rendering *)

Inductive annotation :=
| Point (a : PointAnnotation.t)
| Arrow (a : ArrowAnnotation.t)
| Outline (a : OutlineAnnotation.t)
| Legend (a : LegendAnnotation.t).

Definition fmapM {A B} (f : A -> B) (m : M A) : M B :=
  let! a := m in ret (f a).

Section Render.
Variable Proj : string -> result (float -> float -> float * float).
Variable mesh_effect : Texture -> Mesh -> Mesh.

(** [annotation.add_annotation(glacier_3dviz, plotter)], by class. *)
Definition add_annotation (a : annotation) (glacier_3dviz : Glacier3DViz.t)
  : M annotation :=
  match a with
  | Point p => fmapM Point (PointAnnotation.add_annotation Proj p glacier_3dviz)
  | Arrow p => fmapM Arrow (ArrowAnnotation.add_annotation p glacier_3dviz)
  | Outline p =>
      fmapM Outline
        (OutlineAnnotation.add_annotation mesh_effect p glacier_3dviz)
  | Legend p => fmapM Legend (LegendAnnotation.add_annotation p glacier_3dviz)
  end.
End Render.

(** ** Vocabulary of the properties *)

(** The extent of a field of the context's dataset: its minimum and its
    maximum, as [dataset[field].min()] and [dataset[field].max()]. *)
Definition extent (glacier_3dviz : Glacier3DViz.t) (field : string)
  : result (float * float) :=
  let? a := Dataset.getitem (Glacier3DViz.dataset glacier_3dviz) field in
  let? lo := DataArray.min a in
  let? hi := DataArray.max a in
  Ok (lo, hi).

Fixpoint all2 {A B} (f : A -> B -> bool) (l : list A) (k : list B) : bool :=
  match l, k with
  | [], [] => true
  | a :: l, b :: k => f a b && all2 f l k
  | _, _ => false
  end.

(** [==] on two arrays: the same shape and every pair of entries equal, as
    floats compare. *)
Definition arr_eqb (a b : list (list float)) : bool :=
  all2 (all2 PrimFloat.eqb) a b.

(** The calls a run added to the scene. *)
Definition new_calls (w w' : World) : list DrawCall :=
  drop (length (scene w)) (scene w').

(** The fixed defaults of each variant, as the specification lists them. *)
Definition arrow_defaults : gmap string value :=
  {[ "show_scalar_bar" := VBool false;
     "color" := VSeq [VFloat 0.2; VFloat 0.2; VFloat 0.2] ]}.

Definition text_defaults : gmap string value :=
  {[ "shape" := VNone;
     "show_points" := VBool false;
     "font_size" := VInt 30 ]}.

Definition legend_defaults : gmap string value :=
  {[ "bcolor" := VSeq [VFloat 0.5; VFloat 0.5; VFloat 0.5];
     "size" := VSeq [VFloat 0.2; VFloat 0.1];
     "loc" := VStr "lower center";
     "face" := VStr "rectangle" ]}.

(** The mapping a caller supplies through an optional dictionary argument:
    the contents of the dictionary, or nothing when the argument is
    omitted. *)
Definition caller_dict (w : World) (arg : option loc)
  : option (gmap string value) :=
  match arg with
  | None => Some ∅
  | Some l =>
      match heap w !! l with
      | Some (ODict d) => Some d
      | _ => None
      end
  end.

(** The options a call forwards, by kind of call. *)
Definition forwards (arrow_kw text_kw : gmap string value) (c : DrawCall)
  : Prop :=
  match c with
  | add_arrows _ _ _ kw => kw = arrow_kw
  | add_point_labels _ _ kw => kw = text_kw
  | add_mesh _ _ => False
  | add_legend _ _ => False
  end.

Definition forwards_legend (labels : value) (legend_kw : gmap string value)
    (c : DrawCall) : Prop :=
  match c with
  | add_legend ls kw => ls = labels /\ kw = legend_kw
  | _ => False
  end.

(** The label lists of a legend, as the loop of the constructor leaves
    them: the entry 1 of each is the normalized colour. *)
Definition normalized (h : gmap loc obj) (e : loc * list value * RGBA)
  : gmap loc obj :=
  <[e.1.1 := OList (<[1%nat := VRGBA e.2]> e.1.2)]> h.

(** What the loop of the legend's constructor needs of a label list: its
    object is a list whose entry 1 [check_color] accepts. An entry names the
    object, its contents, and the normalized colour. *)
Definition entry_ok (check_color : value -> result RGBA) (h : gmap loc obj)
    (e : loc * list value * RGBA) : Prop :=
  h !! e.1.1 = Some (OList e.1.2)
  /\ exists col, e.1.2 !! 1%nat = Some col /\ check_color col = Ok e.2.

(** *** Example contexts *)

Definition field (vs : list float) : DataArray.t :=
  DataArray.mk [length vs] vs.

Definition some_mesh : Mesh :=
  {| dimensions := [2; 2]%nat;
     points := [[0; 0; 100]; [10; 0; 100]; [0; 20; 200]; [10; 20; 200]]%float;
     active_texture := false |}.

(** A world whose only object is the terrain mesh. *)
Definition world0 : World :=
  {| heap := {[ 1%positive := OMesh some_mesh ]}; scene := [] |}.

(** The scenario of the specification: x in [0, 10], y in [0, 20], bedrock
    in [100, 200]. *)
Definition scenario : Glacier3DViz.t :=
  Glacier3DViz.mk
    (Dataset.mk
       (<["x" := field [0; 10]%float]>
          (<["y" := field [0; 20]%float]>
             (<["bedrock" := field [100; 200]%float]> ∅)))
       ∅)
    "x" "y" "bedrock" 1%positive.


Definition arrow (x_position y_position z_position : float)
    (x_direction y_direction z_direction : float)
    (arrow_magnitude text_position : float) (akw tkw : loc)
  : ArrowAnnotation.t :=
  {| ArrowAnnotation.x_position := x_position;
     ArrowAnnotation.y_position := y_position;
     ArrowAnnotation.z_position := z_position;
     ArrowAnnotation.text := "N";
     ArrowAnnotation.text_position := text_position;
     ArrowAnnotation.arrow_cent := None;
     ArrowAnnotation.arrow_direction :=
       [[x_direction; y_direction; z_direction]];
     ArrowAnnotation.arrow_magnitude_relative := arrow_magnitude;
     ArrowAnnotation.arrow_magnitude := None;
     ArrowAnnotation.arrow_kwargs := akw;
     ArrowAnnotation.text_kwargs := tkw |}.

(** The scenario's arrow, its variant at the far end of the x axis, and a
    variant with a huge direction and its text at the tail. The dictionaries
    of all three are the objects 2 and 3 of [arrow_world]. *)
Definition scenario_arrow : ArrowAnnotation.t :=
  arrow 0.5 0.5 0.5 0 1 0 0.1 1.3 2%positive 3%positive.


Definition huge_arrow : ArrowAnnotation.t :=
  arrow 0.5 0.5 0.5 1e308 0 0 0.1 0 2%positive 3%positive.

Definition arrow_world : World :=
  {| heap := <[3%positive := ODict ∅]>
               (<[2%positive := ODict ∅]> (heap world0));
     scene := [] |}.

Definition byte_of_Z (z : Z) : option byte :=
  if (0 <=? z)%Z then Byte.of_N (Z.to_N z) else None.

(** Modelled from the spec: an instance of the colour-normalization utility
    [utils.check_color], used by the examples only. It accepts the names
    black and blue and a sequence of four integers on the 0-255 scale, and
    rejects anything else. *)
Definition palette (color : value) : result RGBA :=
  match color with
  | VStr s =>
      if String.eqb s "black" then Ok (mkRGBA x00 x00 x00 xff)
      else if String.eqb s "blue" then Ok (mkRGBA x00 x00 xff xff)
      else Raise ValueError
  | VSeq [VInt r; VInt g; VInt b; VInt a] =>
      match byte_of_Z r, byte_of_Z g, byte_of_Z b, byte_of_Z a with
      | Some r, Some g, Some b, Some a => Ok (mkRGBA r g b a)
      | _, _, _, _ => Raise ValueError
      end
  | _ => Raise ValueError
  end.

(** A plotting surface that marks the mesh it draws. *)
Definition activate (_ : Texture) (m : Mesh) : Mesh :=
  {| dimensions := dimensions m; points := points m; active_texture := true |}.

(** The scenario with a glacier mask of shape (1, 3); the terrain mesh of
    [world0] has the grid shape (2, 2). *)
Definition outlined : Glacier3DViz.t :=
  Glacier3DViz.mk
    (Dataset.mk
       (<["glacier_ext" := DataArray.mk [1; 3]%nat [0; 1; 0]%float]>
          (Dataset.data_vars (Glacier3DViz.dataset scenario)))
       ∅)
    "x" "y" "bedrock" 1%positive.

Definition black : RGBA := mkRGBA x00 x00 x00 xff.

Definition black_outline : OutlineAnnotation.t :=
  {| OutlineAnnotation.outline_data := "glacier_ext";
     OutlineAnnotation.outline_color := black;
     OutlineAnnotation.outline_texture := None |}.

(** Two dictionaries of a caller, at the objects 2 and 3. *)
Definition caller_world : World :=
  {| heap := <[3%positive :=
                 ODict {[ "font_size" := VInt 12; "bold" := VBool true ]}]>
               (<[2%positive := ODict {[ "color" := VStr "red" ]}]>
                  (heap world0));
     scene := [] |}.

(** The label list of the specification's scenario,
    [[['ice', 'blue'], ['rock', [100, 100, 100, 255]]]], at the object 2,
    and an empty label list at the object 5. *)
Definition labels_world : World :=
  {| heap :=
       <[5%positive := OList []]>
         (<[4%positive :=
              OList [VStr "rock";
                     VSeq [VInt 100; VInt 100; VInt 100; VInt 255]]]>
            (<[3%positive := OList [VStr "ice"; VStr "blue"]]>
               (<[2%positive := OList [VRef 3%positive; VRef 4%positive]]>
                  (heap world0))));
     scene := [] |}.

(** *** Vocabulary of the further properties *)

(** The keywords the arrow call gives explicitly are free in a mapping. *)
Definition no_arrow_keyword (kw : gmap string value) : Prop :=
  kw !! "cent" = None /\ kw !! "direction" = None /\ kw !! "mag" = None.

(** Between two heaps no object is lost, a dictionary only gains keys, and
    every other object is what it was. *)
Definition dicts_grow (h h' : gmap loc obj) : Prop :=
  forall l o,
    h !! l = Some o ->
    match o with
    | ODict d => exists d', h' !! l = Some (ODict d') /\ d ⊆ d'
    | _ => h' !! l = Some o
    end.

(** Between two heaps the same objects exist, a list differs at most in its
    entry 1, and every other object is what it was. *)
Definition lists_entry1 (h h' : gmap loc obj) : Prop :=
  dom h' = dom h
  /\ forall l o,
      h !! l = Some o ->
      match o with
      | OList vs =>
          exists vs', h' !! l = Some (OList vs')
                      /\ length vs' = length vs
                      /\ forall i, i <> 1%nat -> vs' !! i = vs !! i
      | _ => h' !! l = Some o
      end.

(** Modelled from the spec: an instance of the projection library's
    [pyproj.Proj], used by the examples only. It rejects the empty
    descriptor and otherwise scales both coordinates by 1000. *)
Definition example_proj (srs : string)
  : result (float -> float -> float * float) :=
  if String.eqb srs "" then Raise CRSError
  else Ok (fun a b => (a * 1000, b * 1000)%float).

(** The scenario with a projection descriptor among its attributes. *)
Definition projected : Glacier3DViz.t :=
  Glacier3DViz.mk
    (Dataset.mk (Dataset.data_vars (Glacier3DViz.dataset scenario))
                {[ "pyproj_srs" := "+proj=utm +zone=32" ]})
    "x" "y" "bedrock" 1%positive.

Definition summit : PointAnnotation.t :=
  PointAnnotation.__init__ 46.5 8 3000 "summit" {[ "font_size" := VInt 20 ]}.

(** The drawing primitives of each class of annotation. *)
Definition draws (a : annotation) (c : DrawCall) : Prop :=
  match a, c with
  | Point _, add_point_labels _ _ _ => True
  | Arrow _, add_arrows _ _ _ _ => True
  | Arrow _, add_point_labels _ _ _ => True
  | Outline _, add_mesh _ _ => True
  | Legend _, add_legend _ _ => True
  | _, _ => False
  end.

(** The most calls one render of an annotation makes. *)
Definition most_calls (a : annotation) : nat :=
  match a with
  | Arrow _ => 2
  | _ => 1
  end.

(** A computation that draws nothing and takes the heap to one related to
    it, whatever its outcome. *)
Definition keeps (R : gmap loc obj -> gmap loc obj -> Prop) {A} (m : M A)
  : Prop :=
  forall w, scene (m w).1 = scene w /\ R (heap w) (heap (m w).1).

(** Label lists whose second label is at fault: a colour that [palette]
    rejects, a tuple, a list of one entry. The list of labels is the
    object 2, the first label the object 3. *)
Definition labels_with (second : value) (fourth : list value) : World :=
  {| heap :=
       <[4%positive := OList fourth]>
         (<[3%positive := OList [VStr "ice"; VStr "blue"]]>
            (<[2%positive := OList [VRef 3%positive; second]]>
               (heap world0)));
     scene := [] |}.

Definition rejected_world : World :=
  labels_with (VRef 4%positive) [VStr "rock"; VStr "granite"].

Definition tuple_world : World :=
  labels_with (VSeq [VStr "rock"; VStr "black"]) [].

Definition short_world : World :=
  labels_with (VRef 4%positive) [VStr "rock"].

Definition ice : loc * list value * RGBA :=
  (3%positive, [VStr "ice"; VStr "blue"], mkRGBA x00 x00 xff xff).

(** A context with a single row: its y coordinate is 20 everywhere. *)
Definition single_row : Glacier3DViz.t :=
  Glacier3DViz.mk
    (Dataset.mk
       (<["x" := field [0; 10]%float]>
          (<["y" := field [20; 20]%float]>
             (<["bedrock" := field [100; 200]%float]> ∅)))
       ∅)
    "x" "y" "bedrock" 1%positive.



(** * Properties *)

(** ** Facts of binary64 arithmetic

    Proved from the specification of the primitive operations
    ([Prim2SF], [mul_spec], [add_spec], ...). *)

Module Binary64.
Local Open Scope Z_scope.

Lemma digits2_pos_shift52 m :
  Z.pos (digits2_pos (4503599627370496 * m)) = Z.pos (digits2_pos m) + 52.
Proof. cbv [Pos.mul]. cbn [digits2_pos]. lia. Qed.

(** Rounding a mantissa that was shifted left by 52 bits gives the
    mantissa back. *)
Lemma round_exact s m e :
  bounded prec emax m e = true ->
  binary_round_aux prec emax s (Z.pos (m * 4503599627370496)) (e + -52)
                   loc_Exact
  = S754_finite s m e.
Proof.
  intros Hb. apply andb_prop in Hb as [Hc He].
  unfold canonical_mantissa in Hc. apply Z.eqb_eq in Hc.
  rewrite Pos.mul_comm.
  unfold binary_round_aux, shr_fexp.
  unfold Zdigits2 at 1. rewrite digits2_pos_shift52.
  replace (Z.pos (digits2_pos m) + 52 + (e + -52))
    with (Z.pos (digits2_pos m) + e) by lia.
  rewrite Hc.
  replace (e - (e + -52)) with 52 by lia.
  cbv [Pos.mul].
  cbn [shr shr_record_of_loc SpecFloat.iter_pos shr_1 orb loc_of_shr_record
       shr_m shr_r shr_s round_nearest_even].
  unfold Zdigits2.
  replace (e + -52 + 52) with e by lia.
  rewrite Hc, Z.sub_diag. cbn [shr shr_record_of_loc shr_m].
  now rewrite He.
Qed.

Lemma mul_1_r x : (x * 1)%float = x.
Proof.
  apply Prim2SF_inj. rewrite mul_spec.
  change (Prim2SF 1) with (S754_finite false 4503599627370496 (-52)).
  pose proof (Prim2SF_valid x) as Hv.
  destruct (Prim2SF x) as [s|s| |s m e]; cbn [SF64mul SFmul];
    try reflexivity.
  - now rewrite xorb_false_r.
  - now rewrite xorb_false_r.
  - unfold SF64mul, SFmul. rewrite xorb_false_r. now apply round_exact.
Qed.

Lemma SFmul_comm x y : SF64mul x y = SF64mul y x.
Proof.
  unfold SF64mul.
  destruct x as [s|s| |s m e], y as [s'|s'| |s' m' e']; cbn [SFmul];
    rewrite ?(xorb_comm s s'); try reflexivity.
  now rewrite Pos.mul_comm, Z.add_comm.
Qed.

Lemma mul_comm x y : (x * y)%float = (y * x)%float.
Proof. apply Prim2SF_inj. rewrite !mul_spec. apply SFmul_comm. Qed.


Lemma SFcompare_refl x : x <> S754_nan -> SFcompare x x = Some Eq.
Proof.
  destruct x as [s|s| |s m e]; intros H; try congruence; cbn.
  - reflexivity.
  - now destruct s.
  - rewrite Z.compare_refl.
    pose proof (Pos.compare_refl m) as Hm. unfold Pos.compare in Hm.
    rewrite Hm. now destruct s.
Qed.

Lemma is_nan_spec x :
  is_nan x = match Prim2SF x with S754_nan => true | _ => false end.
Proof.
  unfold is_nan. rewrite FloatAxioms.eqb_spec. unfold SFeqb.
  destruct (Prim2SF x) eqn:E; try reflexivity;
    now rewrite SFcompare_refl.
Qed.

Lemma is_infinity_spec x :
  is_infinity x
  = match Prim2SF x with S754_infinity _ => true | _ => false end.
Proof.
  unfold is_infinity. rewrite FloatAxioms.eqb_spec, abs_spec.
  change (Prim2SF infinity) with (S754_infinity false).
  now destruct (Prim2SF x) as [s|s| |s m e].
Qed.

Lemma is_finite_spec x :
  is_finite x = match Prim2SF x with
                | S754_zero _ | S754_finite _ _ _ => true
                | _ => false
                end.
Proof.
  unfold is_finite. rewrite is_nan_spec, is_infinity_spec.
  now destruct (Prim2SF x).
Qed.

(** A finite number times zero is a zero, on either side. *)
Lemma mul_0_r_finite x :
  is_finite x = true -> exists s, Prim2SF (x * 0)%float = S754_zero s.
Proof.
  rewrite is_finite_spec, mul_spec.
  change (Prim2SF 0) with (S754_zero false).
  destruct (Prim2SF x) as [s|s| |s m e]; intros H; try discriminate; cbn;
    eauto.
Qed.

Lemma mul_0_l_finite x :
  is_finite x = true -> exists s, Prim2SF (0 * x)%float = S754_zero s.
Proof. rewrite mul_comm. apply mul_0_r_finite. Qed.

(** Adding a zero to a number gives a number that compares equal to it. *)
Lemma add_zero_eqb x z s :
  is_nan x = false -> Prim2SF z = S754_zero s -> (x + z =? x)%float = true.
Proof.
  rewrite is_nan_spec, FloatAxioms.eqb_spec, add_spec. intros Hx ->.
  unfold SFeqb.
  destruct (Prim2SF x) as [sx|sx| |sx m e] eqn:E; try discriminate.
  - cbn. now destruct sx, s.
  - cbn. now destruct sx.
  - unfold SF64add, SFadd. now rewrite SFcompare_refl.
Qed.

End Binary64.

(** ** ArrowAnnotation: anchor, magnitude and text point *)

Section Arrow.
Import ArrowAnnotation.
Local Open Scope float_scope.

Lemma extent_inv g f lo hi :
  extent g f = Ok (lo, hi) ->
  exists a, Dataset.getitem (Glacier3DViz.dataset g) f = Ok a
            /\ DataArray.min a = Ok lo /\ DataArray.max a = Ok hi.
Proof.
  unfold extent. intros H.
  destruct (Dataset.getitem _ f) as [a|]; [|discriminate].
  exists a. cbn [rbind] in H.
  destruct (DataArray.min a); [|discriminate].
  destruct (DataArray.max a); [|discriminate].
  cbn [rbind] in H. by simplify_eq.
Qed.

Lemma set_arrow_position_extent self g xlo xhi ylo yhi zlo zhi :
  extent g (Glacier3DViz.x g) = Ok (xlo, xhi) ->
  extent g (Glacier3DViz.y g) = Ok (ylo, yhi) ->
  extent g (Glacier3DViz.topo_bedrock g) = Ok (zlo, zhi) ->
  set_arrow_position self g
  = Ok (with_arrow_cent self
          [[get_position xlo xhi (x_position self);
            get_position ylo yhi (y_position self);
            get_position zlo zhi (z_position self)]]).
Proof.
  intros (xs & Hx & Hx1 & Hx2)%extent_inv (ys & Hy & Hy1 & Hy2)%extent_inv
         (zs & Hz & Hz1 & Hz2)%extent_inv.
  unfold set_arrow_position.
  rewrite Hx. cbn [rbind]. rewrite Hx1, Hx2. cbn [rbind].
  rewrite Hy. cbn [rbind]. rewrite Hy1, Hy2. cbn [rbind].
  rewrite Hz. cbn [rbind]. rewrite Hz1, Hz2. cbn [rbind].
  reflexivity.
Qed.

Lemma set_arrow_magnitude_extent self g ylo yhi :
  extent g (Glacier3DViz.y g) = Ok (ylo, yhi) ->
  set_arrow_magnitude self g
  = Ok (with_arrow_magnitude self
          ((yhi - ylo) * arrow_magnitude_relative self)).
Proof.
  intros (ys & Hy & Hy1 & Hy2)%extent_inv.
  unfold set_arrow_magnitude.
  rewrite Hy. cbn [rbind]. rewrite Hy2, Hy1. reflexivity.
Qed.



End Arrow.



Section ArrowRender.
Import ArrowAnnotation.
Local Open Scope float_scope.

(** C2. For every context whose y field has an extent,
    [set_arrow_magnitude] stores arrow_magnitude_relative * (max(y) - min(y));
    any other arrow with the same relative fraction, whatever its direction
    and position fractions, on any context with the same y extent, gets the
    same magnitude. *)
Theorem C2_magnitude_y_extent self g ylo yhi :
  extent g (Glacier3DViz.y g) = Ok (ylo, yhi) ->
  (exists self',
      set_arrow_magnitude self g = Ok self'
      /\ arrow_magnitude self'
         = Some (arrow_magnitude_relative self * (yhi - ylo)))
  /\ (forall other g',
         extent g' (Glacier3DViz.y g') = Ok (ylo, yhi) ->
         arrow_magnitude_relative other = arrow_magnitude_relative self ->
         exists other',
           set_arrow_magnitude other g' = Ok other'
           /\ arrow_magnitude other'
              = Some (arrow_magnitude_relative self * (yhi - ylo))).
Proof.
  intros Hy. split.
  - eexists. split; [by apply set_arrow_magnitude_extent|].
    cbn. by rewrite Binary64.mul_comm.
  - intros other g' Hy' Hrel. eexists.
    split; [by apply set_arrow_magnitude_extent|].
    cbn. by rewrite Hrel, Binary64.mul_comm.
Qed.

(** A render that succeeds made exactly two calls, from the fields the
    two setters stored and the dictionaries the arrow refers to. *)
Lemma arrow_render_ok self g w w' self' :
  add_annotation self g w = (w', Ok self') ->
  exists s1 cent mag akw tkw,
    set_arrow_position self g = Ok s1
    /\ set_arrow_magnitude s1 g = Ok self'
    /\ arrow_cent self' = Some cent
    /\ arrow_magnitude self' = Some mag
    /\ heap w !! arrow_kwargs self' = Some (ODict akw)
    /\ heap w !! text_kwargs self' = Some (ODict tkw)
    /\ heap w' = heap w
    /\ scene w'
       = scene w
         ++ [add_arrows cent (arrow_direction self') mag akw;
             add_point_labels
               (text_point cent (arrow_direction self') mag
                           (text_position self'))
               [text self'] tkw].
Proof.
  unfold add_annotation, bind, lift, the, unpack, keywords, draw, ret, raise.
  intros H.
  destruct (set_arrow_position self g) as [s1|] eqn:E1; [|discriminate].
  destruct (set_arrow_magnitude s1 g) as [s2|] eqn:E2; [|discriminate].
  destruct (arrow_cent s2) as [cent|] eqn:Ec; [|discriminate].
  destruct (arrow_magnitude s2) as [mag|] eqn:Em; [|discriminate].
  destruct (heap w !! arrow_kwargs s2) as [[| akw |]|] eqn:Ea;
    try discriminate.
  destruct (forallb _ _); [|discriminate].
  cbn [heap scene] in H.
  destruct (heap w !! text_kwargs s2) as [[| tkw |]|] eqn:Et;
    try discriminate.
  cbn [heap scene] in H. simplify_eq.
  exists s1, cent, mag, akw, tkw. cbn [heap scene].
  rewrite <- app_assoc. done.
Qed.
End ArrowRender.

Lemma C2_magnitude_y_extent_witness :
  extent scenario "y" = Ok (0, 20)%float
  /\ exists self',
      ArrowAnnotation.set_arrow_magnitude scenario_arrow scenario = Ok self'
      /\ ArrowAnnotation.arrow_magnitude self' = Some 2%float.
Proof.
  split; [reflexivity|].
  destruct (C2_magnitude_y_extent scenario_arrow scenario 0 20 eq_refl)
    as [(self' & H1 & H2) _].
  exists self'. split; [exact H1|]. rewrite H2. vm_compute. reflexivity.
Defined.

Section ArrowText.
Import ArrowAnnotation.
Local Open Scope float_scope.

Lemma arr_scale_1 a : arr_scale a 1 = a.
Proof.
  unfold arr_scale. induction a as [|r a IH]; [done|].
  cbn [map]. rewrite IH. f_equal.
  induction r as [|v r IHr]; [done|].
  cbn [map]. by rewrite IHr, Binary64.mul_1_r.
Qed.

Lemma text_point_1 cent dir mag :
  text_point cent dir mag 1 = arr_add cent (arr_scale dir mag).
Proof. unfold text_point. by rewrite arr_scale_1. Qed.

Lemma text_point_0 cent dir mag :
  Forall2 (Forall2 (fun c d =>
                      is_nan c = false /\ is_finite (d * mag) = true))
          cent dir ->
  arr_eqb (text_point cent dir mag 0) cent = true.
Proof.
  unfold arr_eqb, text_point, arr_add, arr_scale.
  induction 1 as [|r r' cent dir Hr _ IH]; [done|].
  cbn [map zip_with all2]. rewrite IH, andb_true_r. clear IH.
  induction Hr as [|c d r r' [Hc Hd] _ IHr]; [done|].
  cbn [map zip_with all2]. rewrite IHr, andb_true_r.
  destruct (Binary64.mul_0_r_finite _ Hd) as [s Hs].
  by eapply Binary64.add_zero_eqb.
Qed.

(** C3 (as amended). A render that succeeds passes to the text-label call
    the point anchor + direction * magnitude * text_position, element-wise
    in binary64 arithmetic, after the arrow call. With text_position = 1
    the point is anchor + direction * magnitude; with text_position = 0 it
    compares equal to the anchor whenever every direction * magnitude is
    finite and no anchor entry is NaN. *)
Theorem C3_text_point self g w w' self' :
  add_annotation self g w = (w', Ok self') ->
  (exists cent mag akw tkw,
      arrow_cent self' = Some cent
      /\ arrow_magnitude self' = Some mag
      /\ new_calls w w'
         = [add_arrows cent (arrow_direction self) mag akw;
            add_point_labels
              (arr_add cent
                 (arr_scale (arr_scale (arrow_direction self) mag)
                            (text_position self)))
              [text self] tkw])
  /\ (forall cent dir mag,
         text_point cent dir mag 1 = arr_add cent (arr_scale dir mag))
  /\ (forall cent dir mag,
         Forall2 (Forall2 (fun c d =>
                             is_nan c = false /\ is_finite (d * mag) = true))
                 cent dir ->
         arr_eqb (text_point cent dir mag 0) cent = true).
Proof.
  intros H. split; [|split].
  - apply arrow_render_ok in H
      as (s1 & cent & mag & akw & tkw & H1 & H2 & Hc & Hm & _ & _ & _ & Hs).
    exists cent, mag, akw, tkw. split; [done|]. split; [done|].
    unfold new_calls. rewrite Hs, drop_app_length.
    unfold set_arrow_position in H1. unfold set_arrow_magnitude in H2.
    repeat match type of H1 with
           | context [rbind ?m _] => destruct m; cbn [rbind] in H1;
                                     [|discriminate]
           end.
    repeat match type of H2 with
           | context [rbind ?m _] => destruct m; cbn [rbind] in H2;
                                     [|discriminate]
           end.
    by simplify_eq.
  - apply text_point_1.
  - apply text_point_0.
Qed.
End ArrowText.

Lemma C3_text_point_witness :
  exists w' self',
    ArrowAnnotation.add_annotation scenario_arrow scenario arrow_world
    = (w', Ok self')
    /\ exists akw tkw,
      new_calls arrow_world w'
      = [add_arrows [[5; 10; 150]] [[0; 1; 0]] 2 akw;
         add_point_labels [[5; 12.6; 150]] ["N"] tkw]%float.
Proof.
  eexists _, _. split; [vm_compute; reflexivity|].
  match goal with
  | |- context [new_calls _ ?w] =>
      destruct (C3_text_point scenario_arrow scenario arrow_world w _ eq_refl)
        as [(cent & mag & akw & tkw & Hc & Hm & Hn) _]
  end.
  exists akw, tkw. rewrite Hn.
  cbn in Hc, Hm. simplify_eq. vm_compute. reflexivity.
Defined.

(** C3 (as stated) fails: with direction (1e308, 0, 0) on the scenario the
    magnitude is 2, direction * magnitude overflows to infinity, and with
    text_position = 0 the text point's x is infinity * 0, not the anchor's
    x = 5. *)
Lemma C3_counterexample :
  ArrowAnnotation.text_position huge_arrow = 0%float
  /\ exists w' self' akw tkw p,
      ArrowAnnotation.add_annotation huge_arrow scenario arrow_world
      = (w', Ok self')
      /\ new_calls arrow_world w'
         = [add_arrows [[5; 10; 150]] [[1e308; 0; 0]] 2 akw;
            add_point_labels [[p; 10; 150]] ["N"] tkw]%float
      /\ (p =? 5)%float = false
      /\ arr_eqb [[p; 10; 150]]%float [[5; 10; 150]]%float = false.
Proof.
  split; [reflexivity|].
  eexists _, _, _, _, _. split; [vm_compute; reflexivity|].
  split; [vm_compute; reflexivity|].
  split; reflexivity.
Qed.

(** ** OutlineAnnotation: the texture *)

Section OutlineTexture.
Import OutlineAnnotation.

Lemma product_app_4 (shape : list nat) :
  foldr Nat.mul 1%nat (shape ++ [4%nat]) = (4 * foldr Nat.mul 1%nat shape)%nat.
Proof.
  induction shape as [|n shape IH]; [done|].
  cbn [app foldr]. rewrite IH. lia.
Qed.

Lemma setitem_mask_length a mask c :
  length a = (4 * length mask)%nat ->
  length (setitem_mask a mask c) = length a.
Proof.
  revert a. induction mask as [|b mask IH]; intros a Ha; [done|].
  cbn [setitem_mask length] in *. rewrite length_app, IH.
  - rewrite length_drop. destruct b; [cbn|rewrite length_take]; lia.
  - rewrite length_drop. lia.
Qed.

(** The pixel at a position of the mask: the colour where the mask selects
    it, and what the array held before elsewhere. *)
Lemma setitem_mask_pixel (a : list byte) (mask : list bool) c (i : nat)
    (b : bool) :
  length a = (4 * length mask)%nat ->
  mask !! i = Some b ->
  take 4 (drop (4 * i) (setitem_mask a mask c))
  = if b then channels c else take 4 (drop (4 * i) a).
Proof.
  revert a i. induction mask as [|b' mask IH]; intros a i Ha Hi; [done|].
  cbn [setitem_mask length] in *.
  assert (length (if b' then channels c else take 4 a) = 4%nat) as Hlen.
  { destruct b'; [done|]. rewrite length_take. lia. }
  destruct i as [|i]; cbn [lookup list_lookup] in Hi.
  - simplify_eq. rewrite Nat.mul_0_r, drop_0.
    rewrite take_app_length' by done.
    destruct b; [done|]. by rewrite drop_0.
  - replace (4 * S i)%nat with (4 + 4 * i)%nat by lia.
    rewrite <- drop_drop, drop_app_length' by done.
    rewrite IH; [|rewrite length_drop; lia|done].
    destruct b; [done|]. by rewrite drop_drop.
Qed.

Lemma zeros_pixel n i :
  (i < n)%nat ->
  take 4 (drop (4 * i) (replicate (4 * n) x00)) = [x00; x00; x00; x00].
Proof.
  intros Hi. rewrite drop_replicate, take_replicate.
  by replace (4 `min` (4 * n - 4 * i))%nat with 4%nat by lia.
Qed.

Variable check_color : value -> result RGBA.

(** C4. For every mask field of the dataset, [set_outline_texture] builds a
    byte array of the mask's shape with four channels appended, in which
    the pixel at every position where the mask equals 1 is the colour
    [check_color] gave at construction, and the pixel at every other
    position (so wherever the mask equals 0) is four zero bytes. *)
Theorem C4_outline_texture name color self g mask :
  __init__ check_color name color = Ok self ->
  Dataset.getitem (Glacier3DViz.dataset g) name = Ok mask ->
  DataArray.wf mask ->
  exists c self' tex,
    check_color color = Ok c
    /\ set_outline_texture self g = Ok self'
    /\ outline_texture self' = Some tex
    /\ tex_shape tex = DataArray.shape mask ++ [4%nat]
    /\ length (tex_data tex) = foldr Nat.mul 1%nat (tex_shape tex)
    /\ forall i v,
        DataArray.data mask !! i = Some v ->
        take 4 (drop (4 * i) (tex_data tex))
        = if (v =? 1)%float then channels c else [x00; x00; x00; x00].
Proof.
  unfold __init__. intros Hinit Hmask Hwf.
  destruct (check_color color) as [c|] eqn:Hc; [|discriminate].
  cbn [rbind] in Hinit. simplify_eq.
  unfold set_outline_texture. cbn [outline_data outline_color].
  rewrite Hmask. cbn [rbind].
  eexists c, _, _. split; [done|]. split; [done|].
  cbn [outline_texture numpy_to_texture tex_shape tex_data].
  split; [done|]. split; [done|].
  unfold DataArray.wf in Hwf.
  assert (length (zeros (DataArray.shape mask ++ [4%nat]))
          = (4 * length (List.map (fun v => (v =? 1)%float)
                                  (DataArray.data mask)))%nat) as Hz.
  { unfold zeros. rewrite length_replicate, product_app_4, length_map. lia. }
  cbn [numpy_to_texture tex_shape tex_data]. split.
  - rewrite setitem_mask_length by done.
    unfold zeros. by rewrite length_replicate.
  - intros i v Hi.
    rewrite setitem_mask_pixel with (b := (v =? 1)%float); [|done|].
    + destruct (v =? 1)%float; [done|].
      unfold zeros. rewrite product_app_4, <- Hwf.
      apply zeros_pixel. by eapply lookup_lt_Some.
    + change (List.map ?f ?l) with (f <$> l).
      by rewrite list_lookup_fmap, Hi.
Qed.
End OutlineTexture.

Lemma C4_outline_texture_witness :
  exists self tex,
    OutlineAnnotation.__init__ palette "glacier_ext" (VStr "black") = Ok self
    /\ OutlineAnnotation.outline_texture
         <$> (match OutlineAnnotation.set_outline_texture self outlined with
              | Ok s => Some s
              | Raise _ => None
              end)
       = Some (Some tex)
    /\ tex_shape tex = [1; 3; 4]%nat
    /\ tex_data tex
       = [x00; x00; x00; x00; x00; x00; x00; xff; x00; x00; x00; x00].
Proof.
  destruct (C4_outline_texture palette "glacier_ext" (VStr "black") _ outlined
              (DataArray.mk [1; 3]%nat [0; 1; 0]%float)
              eq_refl eq_refl eq_refl)
    as (c & self' & tex & Hc & Hs & Ht & _).
  eexists _, _. split; [reflexivity|].
  split; [vm_compute; reflexivity|].
  split; reflexivity.
Defined.

(** ** Rendering and the heap *)

Section RenderHeap.
Variable Proj : string -> result (float -> float -> float * float).
Variable mesh_effect : Texture -> Mesh -> Mesh.

Lemma set_arrow_position_fields self g s :
  ArrowAnnotation.set_arrow_position self g = Ok s ->
  exists c, s = ArrowAnnotation.with_arrow_cent self c.
Proof.
  unfold ArrowAnnotation.set_arrow_position. intros H.
  repeat match type of H with
         | context [rbind ?m _] => destruct m; cbn [rbind] in H;
                                   [|discriminate]
         end.
  eexists. by simplify_eq.
Qed.

Lemma set_arrow_magnitude_fields self g s :
  ArrowAnnotation.set_arrow_magnitude self g = Ok s ->
  exists m, s = ArrowAnnotation.with_arrow_magnitude self m.
Proof.
  unfold ArrowAnnotation.set_arrow_magnitude. intros H.
  repeat match type of H with
         | context [rbind ?m _] => destruct m; cbn [rbind] in H;
                                   [|discriminate]
         end.
  eexists. by simplify_eq.
Qed.

(** Whatever its outcome, the render of an arrow leaves the heap as it is,
    and each call it makes carries the contents of the dictionary the
    arrow refers to. *)
Lemma arrow_render_any self g w :
  let w' := (ArrowAnnotation.add_annotation self g w).1 in
  heap w' = heap w
  /\ exists calls,
      scene w' = scene w ++ calls
      /\ Forall (fun c =>
                   match c with
                   | add_arrows _ _ _ kw =>
                       heap w !! ArrowAnnotation.arrow_kwargs self
                       = Some (ODict kw)
                   | add_point_labels _ _ kw =>
                       heap w !! ArrowAnnotation.text_kwargs self
                       = Some (ODict kw)
                   | _ => False
                   end) calls.
Proof.
  unfold ArrowAnnotation.add_annotation, bind, lift, the, unpack, keywords,
    draw, ret, raise.
  destruct (ArrowAnnotation.set_arrow_position self g) as [s1|] eqn:E1;
    [|by split; [|exists []; rewrite app_nil_r]].
  destruct (ArrowAnnotation.set_arrow_magnitude s1 g) as [s2|] eqn:E2;
    [|by split; [|exists []; rewrite app_nil_r]].
  apply set_arrow_position_fields in E1 as [c ->].
  apply set_arrow_magnitude_fields in E2 as [m ->].
  cbn [ArrowAnnotation.arrow_cent ArrowAnnotation.arrow_magnitude
       ArrowAnnotation.with_arrow_cent ArrowAnnotation.with_arrow_magnitude
       ArrowAnnotation.arrow_kwargs ArrowAnnotation.text_kwargs].
  destruct (heap w !! ArrowAnnotation.arrow_kwargs self)
    as [[| akw |]|] eqn:Ea;
    try (by split; [|exists []; rewrite app_nil_r]).
  destruct (forallb _ _);
    [|by split; [|exists []; rewrite app_nil_r]].
  cbn [heap scene fst].
  destruct (heap w !! ArrowAnnotation.text_kwargs self)
    as [[| tkw |]|] eqn:Et; cbn [heap scene fst].
  2: { split; [done|]. eexists [_; _]. rewrite <- app_assoc.
       split; [done|]. by repeat constructor. }
  all: split; [done|]; eexists [_]; split; [done|]; by repeat constructor.
Qed.

Lemma point_render_heap p g w :
  heap (PointAnnotation.add_annotation Proj p g w).1 = heap w.
Proof.
  unfold PointAnnotation.add_annotation, bind, lift, the, draw, ret, raise.
  destruct (PointAnnotation.reproject_coords Proj p g) as [s|]; [|done].
  destruct (PointAnnotation.latitude_proj s); [|done].
  by destruct (PointAnnotation.longitude_proj s).
Qed.

Lemma legend_render_heap p g w :
  heap (LegendAnnotation.add_annotation p g w).1 = heap w.
Proof.
  unfold LegendAnnotation.add_annotation, bind, keywords, draw, ret, raise.
  by destruct (forallb _ _).
Qed.

Lemma fresh_loc_None (h : gmap loc obj) : h !! fresh (dom h) = None.
Proof. apply not_elem_of_dom, is_fresh. Qed.

(** The render of an outline: the texture of the mask is drawn on a new
    mesh object, a copy of the terrain mesh, which alone is handed to the
    plotting surface. *)
Lemma outline_render_ok self g w mask m :
  Dataset.getitem (Glacier3DViz.dataset g)
                  (OutlineAnnotation.outline_data self) = Ok mask ->
  heap w !! Glacier3DViz.topo_mesh g = Some (OMesh m) ->
  exists self' tex,
    OutlineAnnotation.set_outline_texture self g = Ok self'
    /\ OutlineAnnotation.outline_texture self' = Some tex
    /\ tex_shape tex = DataArray.shape mask ++ [4%nat]
    /\ OutlineAnnotation.add_annotation mesh_effect self g w
       = ({| heap := <[fresh (dom (heap w)) := OMesh (mesh_effect tex m)]>
                       (heap w);
             scene := scene w ++ [add_mesh (fresh (dom (heap w))) tex] |},
          Ok self').
Proof.
  intros Hmask Hm.
  unfold OutlineAnnotation.add_annotation, OutlineAnnotation.set_outline_texture.
  rewrite Hmask. cbn [rbind].
  eexists _, _. split; [done|]. split; [done|]. split; [done|].
  unfold bind, lift, OutlineAnnotation.deepcopy, alloc.
  rewrite Hm. cbn [OutlineAnnotation.outline_texture the ret].
  unfold OutlineAnnotation.plotter_add_mesh. cbn [heap scene].
  rewrite lookup_insert_eq, insert_insert_eq. done.
Qed.

Lemma outline_render_any self g w :
  let w' := (OutlineAnnotation.add_annotation mesh_effect self g w).1 in
  w' = w
  \/ (exists tex m,
       heap w !! Glacier3DViz.topo_mesh g = Some (OMesh m)
       /\ w' = {| heap := <[fresh (dom (heap w))
                            := OMesh (mesh_effect tex m)]> (heap w);
                  scene := scene w
                             ++ [add_mesh (fresh (dom (heap w))) tex] |}).
Proof.
  cbv zeta.
  destruct (Dataset.getitem (Glacier3DViz.dataset g)
              (OutlineAnnotation.outline_data self)) as [mask|] eqn:Hmask.
  - destruct (heap w !! Glacier3DViz.topo_mesh g) as [[| |m]|] eqn:Hm.
    4: { left. unfold OutlineAnnotation.add_annotation,
           OutlineAnnotation.set_outline_texture.
         rewrite Hmask. cbn [rbind]. unfold bind, lift,
           OutlineAnnotation.deepcopy. by rewrite Hm. }
    3: { right. destruct (outline_render_ok self g w mask m Hmask Hm)
           as (self' & tex & _ & _ & _ & ->). by exists tex, m. }
    all: left; unfold OutlineAnnotation.add_annotation,
           OutlineAnnotation.set_outline_texture;
         rewrite Hmask; cbn [rbind]; unfold bind, lift,
           OutlineAnnotation.deepcopy; by rewrite Hm.
  - left. unfold OutlineAnnotation.add_annotation,
      OutlineAnnotation.set_outline_texture.
    by rewrite Hmask.
Qed.

Lemma fmapM_world {A B} (f : A -> B) (m : M A) w : (fmapM f m w).1 = (m w).1.
Proof. unfold fmapM, bind, ret. by destruct (m w) as [w' [a|e]]. Qed.

(** C9. No render of any annotation changes an object that existed before
    it: the heap only grows, and the terrain mesh the context refers to is
    afterwards what it was. An outline is drawn on a new object that holds a
    copy of the terrain mesh, and the plotting surface acts on that copy. *)
Theorem C9_render_frame a g w :
  let w' := (add_annotation Proj mesh_effect a g w).1 in
  heap w ⊆ heap w'
  /\ heap w' !! Glacier3DViz.topo_mesh g = heap w !! Glacier3DViz.topo_mesh g
  /\ forall l tex,
      add_mesh l tex ∈ new_calls w w' ->
      (l ∉ dom (heap w))
      /\ exists m, heap w !! Glacier3DViz.topo_mesh g = Some (OMesh m)
                   /\ heap w' !! l = Some (OMesh (mesh_effect tex m)).
Proof.
  destruct a as [p|p|p|p]; cbn [add_annotation]; rewrite fmapM_world.
  - rewrite point_render_heap. split; [done|]. split; [done|].
    intros l tex. unfold new_calls.
    unfold PointAnnotation.add_annotation, bind, lift, the, draw, ret, raise.
    destruct (PointAnnotation.reproject_coords Proj p g) as [s|];
      [|by rewrite drop_all; intros ?%elem_of_nil].
    destruct (PointAnnotation.latitude_proj s);
      [|by rewrite drop_all; intros ?%elem_of_nil].
    destruct (PointAnnotation.longitude_proj s);
      [|by rewrite drop_all; intros ?%elem_of_nil].
    cbn [scene fst]. rewrite drop_app_length.
    intros Hin. apply list_elem_of_singleton in Hin. discriminate.
  - destruct (arrow_render_any p g w) as (Hh & calls & Hs & Hc).
    rewrite Hh. split; [done|]. split; [done|].
    intros l tex. unfold new_calls. rewrite Hs, drop_app_length.
    intros Hin. rewrite Forall_forall in Hc. by apply Hc in Hin.
  - destruct (outline_render_any p g w) as [->|(tex & m & Hm & ->)].
    + split; [done|]. split; [done|].
      intros l tex. unfold new_calls. by rewrite drop_all; intros ?%elem_of_nil.
    + cbn [heap scene]. pose proof (fresh_loc_None (heap w)) as Hf.
      split; [by apply insert_subseteq|]. split.
      * rewrite lookup_insert_ne; [done|]. intros Heq. congruence.
      * intros l tex'. unfold new_calls. cbn [scene].
        rewrite drop_app_length. intros ?%list_elem_of_singleton.
        simplify_eq. split; [by apply not_elem_of_dom|].
        exists m. by rewrite lookup_insert_eq.
  - rewrite legend_render_heap. split; [done|]. split; [done|].
    intros l tex. unfold new_calls.
    unfold LegendAnnotation.add_annotation, bind, keywords, draw, ret, raise.
    destruct (forallb _ _); cbn [scene fst].
    + rewrite drop_app_length. intros Hin. apply list_elem_of_singleton in Hin. discriminate.
    + by rewrite drop_all; intros ?%elem_of_nil.
Qed.
End RenderHeap.

Lemma C9_render_frame_witness :
  exists w' self' l tex,
    add_annotation (fun _ => Raise CRSError) activate (Outline black_outline)
                   outlined world0 = (w', Ok self')
    /\ new_calls world0 w' = [add_mesh l tex]
    /\ l <> Glacier3DViz.topo_mesh outlined
    /\ heap w' !! Glacier3DViz.topo_mesh outlined = Some (OMesh some_mesh)
    /\ heap w' !! l = Some (OMesh (activate tex some_mesh)).
Proof.
  eexists _, _, _, _. split; [vm_compute; reflexivity|].
  split; [vm_compute; reflexivity|].
  match goal with
  | |- context [heap ?w !! _] =>
      destruct (C9_render_frame (fun _ => Raise CRSError) activate
                  (Outline black_outline) outlined world0)
        as (Hsub & Hmesh & Hcopy)
  end.
  split; [by vm_compute|].
  split; [exact Hmesh|].
  edestruct Hcopy as (_ & m & Hm & Hl).
  { vm_compute. apply list_elem_of_singleton. reflexivity. }
  vm_compute in Hm. simplify_eq. exact Hl.
Defined.

(** ** OutlineAnnotation: the mask and the mesh *)




(** ** Keyword dictionaries and their defaults *)

Lemma dict_setdefault_union k v (d : gmap string value) :
  dict_setdefault k v d = d ∪ {[ k := v ]}.
Proof.
  unfold dict_setdefault. destruct (d !! k) as [u|] eqn:Hk.
  - apply map_eq. intros i. rewrite lookup_union.
    destruct (decide (i = k)) as [->|Hne].
    + by rewrite Hk, lookup_singleton_eq.
    + rewrite lookup_singleton_ne by done. by destruct (d !! i).
  - by apply insert_union_singleton_r.
Qed.

Lemma arrow_setdefaults (d : gmap string value) :
  dict_setdefault "color" (VSeq [VFloat 0.2; VFloat 0.2; VFloat 0.2])
    (dict_setdefault "show_scalar_bar" (VBool false) d)
  = d ∪ arrow_defaults.
Proof.
  rewrite !dict_setdefault_union, <- !(assoc_L (∪)).
  f_equal; unfold arrow_defaults; by rewrite <- ?insert_union_singleton_l.
Qed.

Lemma text_setdefaults (d : gmap string value) :
  dict_setdefault "font_size" (VInt 30)
    (dict_setdefault "show_points" (VBool false)
       (dict_setdefault "shape" VNone d))
  = d ∪ text_defaults.
Proof.
  rewrite !dict_setdefault_union, <- !(assoc_L (∪)).
  f_equal; unfold text_defaults; by rewrite <- ?insert_union_singleton_l.
Qed.

Lemma legend_setdefaults (d : gmap string value) :
  dict_setdefault "face" (VStr "rectangle")
    (dict_setdefault "loc" (VStr "lower center")
       (dict_setdefault "size" (VSeq [VFloat 0.2; VFloat 0.1])
          (dict_setdefault "bcolor"
             (VSeq [VFloat 0.5; VFloat 0.5; VFloat 0.5]) d)))
  = d ∪ legend_defaults.
Proof.
  rewrite !dict_setdefault_union, <- !(assoc_L (∪)).
  f_equal; unfold legend_defaults; by rewrite <- ?insert_union_singleton_l.
Qed.

(** Merging keeps every key of the caller and fills the others. *)
Lemma lookup_merge (caller defaults : gmap string value) k :
  (caller ∪ defaults) !! k
  = match caller !! k with
    | Some v => Some v
    | None => defaults !! k
    end.
Proof. rewrite lookup_union. by destruct (caller !! k), (defaults !! k). Qed.

Lemma setdefault_dict w l d k v :
  heap w !! l = Some (ODict d) ->
  setdefault l k v w
  = ({| heap := <[l := ODict (dict_setdefault k v d)]> (heap w);
        scene := scene w |}, Ok tt).
Proof. unfold setdefault. by intros ->. Qed.

(** The argument handling of [ArrowAnnotation.__init__]: the dictionary of
    the caller, or a new empty one, receives the defaults in place. *)
Lemma kwargs_defaults (defaults : loc -> M unit)
    (merged : gmap string value -> gmap string value) arg d w :
  (forall l w0 d0, heap w0 !! l = Some (ODict d0) ->
                   defaults l w0
                   = ({| heap := <[l := ODict (merged d0)]> (heap w0);
                         scene := scene w0 |}, Ok tt)) ->
  caller_dict w arg = Some d ->
  exists l,
    (forall l', arg = Some l' -> l = l')
    /\ (arg = None -> l ∉ dom (heap w))
    /\ forall A (k : loc -> M A),
        bind (match arg with
              | None => alloc (ODict ∅)
              | Some d => ret d
              end)
             (fun l => bind (defaults l) (fun _ => k l)) w
        = k l {| heap := <[l := ODict (merged d)]> (heap w);
                 scene := scene w |}.
Proof.
  intros Hdef Hd. destruct arg as [l|]; cbn [caller_dict] in Hd.
  - destruct (heap w !! l) as [[| d' |]|] eqn:Hl; simplify_eq.
    exists l. split; [by intros ? [= ->]|]. split; [done|].
    intros A k. unfold bind, ret. by rewrite (Hdef _ _ _ Hl).
  - simplify_eq. exists (fresh (dom (heap w))).
    split; [done|]. split; [intros _; apply is_fresh|].
    intros A k. unfold bind, alloc.
    erewrite Hdef by (cbn [heap]; apply lookup_insert_eq).
    cbn [heap scene]. by rewrite insert_insert_eq.
Qed.

Lemma arrow_kwargs_defaults l w d :
  heap w !! l = Some (ODict d) ->
  bind (setdefault l "show_scalar_bar" (VBool false))
       (fun _ => setdefault l "color"
                   (VSeq [VFloat 0.2; VFloat 0.2; VFloat 0.2])) w
  = ({| heap := <[l := ODict (d ∪ arrow_defaults)]> (heap w);
        scene := scene w |}, Ok tt).
Proof.
  intros Hl. unfold bind. rewrite (setdefault_dict _ _ _ _ _ Hl).
  erewrite setdefault_dict by (cbn [heap]; apply lookup_insert_eq).
  cbn [heap scene]. by rewrite insert_insert_eq, arrow_setdefaults.
Qed.

Lemma text_kwargs_defaults l w d :
  heap w !! l = Some (ODict d) ->
  bind (setdefault l "shape" VNone)
       (fun _ => bind (setdefault l "show_points" (VBool false))
                      (fun _ => setdefault l "font_size" (VInt 30))) w
  = ({| heap := <[l := ODict (d ∪ text_defaults)]> (heap w);
        scene := scene w |}, Ok tt).
Proof.
  intros Hl. unfold bind. rewrite (setdefault_dict _ _ _ _ _ Hl).
  erewrite setdefault_dict by (cbn [heap]; apply lookup_insert_eq).
  erewrite setdefault_dict by (cbn [heap]; apply lookup_insert_eq).
  cbn [heap scene]. by rewrite !insert_insert_eq, text_setdefaults.
Qed.

Lemma bind_assoc {A B C} (m : M A) (f : A -> M B) (g : B -> M C) w :
  bind (bind m f) g w = bind m (fun a => bind (f a) g) w.
Proof.
  unfold bind. destruct (m w) as [w1 [a|e]]; [|done].
  by destruct (f a w1) as [w2 [b|e]].
Qed.

(** [ArrowAnnotation.__init__], block by block: the arrow dictionary
    receives its defaults first, and the text dictionary, as it is then,
    receives its own. *)
Lemma arrow_init_gen xp yp zp xd yd zd am txt tp akw tkw da w :
  caller_dict w akw = Some da ->
  exists la,
    (forall l, akw = Some l -> la = l)
    /\ (akw = None -> la ∉ dom (heap w))
    /\ forall dt,
        caller_dict {| heap := <[la := ODict (da ∪ arrow_defaults)]> (heap w);
                       scene := scene w |} tkw = Some dt ->
        exists lt,
          (forall l, tkw = Some l -> lt = l)
          /\ (tkw = None -> lt <> la)
          /\ ArrowAnnotation.__init__ xp yp zp xd yd zd am txt tp akw tkw w
             = ({| heap := <[lt := ODict (dt ∪ text_defaults)]>
                             (<[la := ODict (da ∪ arrow_defaults)]> (heap w));
                   scene := scene w |},
                Ok {| ArrowAnnotation.x_position := xp;
                    ArrowAnnotation.y_position := yp;
                    ArrowAnnotation.z_position := zp;
                    ArrowAnnotation.text := txt;
                    ArrowAnnotation.text_position := tp;
                    ArrowAnnotation.arrow_cent := None;
                    ArrowAnnotation.arrow_direction := [[xd; yd; zd]];
                    ArrowAnnotation.arrow_magnitude_relative := am;
                    ArrowAnnotation.arrow_magnitude := None;
                    ArrowAnnotation.arrow_kwargs := la;
                    ArrowAnnotation.text_kwargs := lt |}).
Proof.
  intros Ha. unfold ArrowAnnotation.__init__.
  destruct (kwargs_defaults
              (fun l => bind (setdefault l "show_scalar_bar" (VBool false))
                          (fun _ => setdefault l "color"
                             (VSeq [VFloat 0.2; VFloat 0.2; VFloat 0.2])))
              (fun d => d ∪ arrow_defaults) akw da w)
    as (la & Hla & Hfa & Hrun);
    [intros; by apply arrow_kwargs_defaults | exact Ha | ].
  exists la. split; [done|]. split; [done|]. intros dt Ht1.
  set (w1 := {| heap := <[la := ODict (da ∪ arrow_defaults)]> (heap w);
                scene := scene w |}) in *.
  destruct (kwargs_defaults
              (fun l => bind (setdefault l "shape" VNone)
                          (fun _ => bind (setdefault l "show_points"
                                            (VBool false))
                                      (fun _ => setdefault l "font_size"
                                                  (VInt 30))))
              (fun d => d ∪ text_defaults) tkw dt w1)
    as (lt & Hlt & Hft & Hrun');
    [intros; by apply text_kwargs_defaults | exact Ht1 | ].
  exists lt. split; [done|]. split.
  { intros Hn ->. apply (Hft Hn). unfold w1. cbn [heap].
    apply elem_of_dom. by rewrite lookup_insert_eq. }
  specialize (Hrun' _ (fun l => ret (ArrowAnnotation.mk xp yp zp txt tp None
                                       [[xd; yd; zd]] am None la l))).
  etrans; [|exact Hrun'].
  etrans;
    [|exact (Hrun _
               (fun la =>
                  bind (match tkw with
                        | None => alloc (ODict ∅)
                        | Some d => ret d
                        end)
                       (fun l =>
                          bind (bind (setdefault l "shape" VNone)
                                  (fun _ =>
                                     bind (setdefault l "show_points"
                                             (VBool false))
                                          (fun _ => setdefault l "font_size"
                                                      (VInt 30))))
                               (fun _ =>
                                  ret (ArrowAnnotation.mk xp yp zp txt tp None
                                         [[xd; yd; zd]] am None la l)))))].
  clear.
  unfold bind.
  repeat match goal with
         | |- context [match ?m ?w with _ => _ end] =>
             destruct (m w) as [? [?|?]]
         end; reflexivity.
Qed.

(** [ArrowAnnotation.__init__] on two distinct dictionaries of a caller,
    or omitted ones: both objects receive their defaults in place, and the
    arrow refers to them. *)
Lemma arrow_init_spec xp yp zp xd yd zd am txt tp akw tkw da dt w :
  caller_dict w akw = Some da ->
  caller_dict w tkw = Some dt ->
  (forall l, akw = Some l -> tkw <> Some l) ->
  exists la lt,
    (forall l, akw = Some l -> la = l)
    /\ (forall l, tkw = Some l -> lt = l)
    /\ la <> lt
    /\ ArrowAnnotation.__init__ xp yp zp xd yd zd am txt tp akw tkw w
       = ({| heap := <[lt := ODict (dt ∪ text_defaults)]>
                       (<[la := ODict (da ∪ arrow_defaults)]> (heap w));
             scene := scene w |},
          Ok {| ArrowAnnotation.x_position := xp;
                    ArrowAnnotation.y_position := yp;
                    ArrowAnnotation.z_position := zp;
                    ArrowAnnotation.text := txt;
                    ArrowAnnotation.text_position := tp;
                    ArrowAnnotation.arrow_cent := None;
                    ArrowAnnotation.arrow_direction := [[xd; yd; zd]];
                    ArrowAnnotation.arrow_magnitude_relative := am;
                    ArrowAnnotation.arrow_magnitude := None;
                    ArrowAnnotation.arrow_kwargs := la;
                    ArrowAnnotation.text_kwargs := lt |}).
Proof.
  intros Ha Ht Hne.
  destruct (arrow_init_gen xp yp zp xd yd zd am txt tp akw tkw da w Ha)
    as (la & Hla & Hfa & Hgen).
  assert (caller_dict
            {| heap := <[la := ODict (da ∪ arrow_defaults)]> (heap w);
               scene := scene w |} tkw = Some dt
          /\ (tkw = Some la -> False)) as [Ht1 Hx].
  { destruct tkw as [lt|]; [|done]. cbn [caller_dict heap] in *.
    destruct akw as [l|].
    - pose proof (Hla l eq_refl) as ->. pose proof (Hne l eq_refl) as Hd'.
      assert (l <> lt) as Hd by congruence.
      rewrite lookup_insert_ne by done. split; [done|]. congruence.
    - specialize (Hfa eq_refl).
      assert (la <> lt) as Hd.
      { intros ->. apply Hfa, elem_of_dom.
        destruct (heap w !! lt) as [[]|]; by simplify_eq. }
      rewrite lookup_insert_ne by done. split; [done|]. congruence. }
  destruct (Hgen dt Ht1) as (lt & Hlt & Hnl & Hinit).
  exists la, lt. split; [done|]. split; [done|]. split; [|done].
  intros ->. destruct tkw as [l|].
  - rewrite (Hlt l eq_refl) in *. by apply Hx.
  - by apply Hnl.
Qed.

(** [ArrowAnnotation.__init__] on one dictionary passed for both
    arguments: the object receives the defaults of the arrow and of the
    text. *)
Lemma arrow_init_shared xp yp zp xd yd zd am txt tp l d w :
  heap w !! l = Some (ODict d) ->
  ArrowAnnotation.__init__ xp yp zp xd yd zd am txt tp (Some l) (Some l) w
  = ({| heap := <[l := ODict (d ∪ arrow_defaults ∪ text_defaults)]> (heap w);
        scene := scene w |},
     Ok {| ArrowAnnotation.x_position := xp;
           ArrowAnnotation.y_position := yp;
           ArrowAnnotation.z_position := zp;
           ArrowAnnotation.text := txt;
           ArrowAnnotation.text_position := tp;
           ArrowAnnotation.arrow_cent := None;
           ArrowAnnotation.arrow_direction := [[xd; yd; zd]];
           ArrowAnnotation.arrow_magnitude_relative := am;
           ArrowAnnotation.arrow_magnitude := None;
           ArrowAnnotation.arrow_kwargs := l;
           ArrowAnnotation.text_kwargs := l |}).
Proof.
  intros Hl.
  destruct (arrow_init_gen xp yp zp xd yd zd am txt tp (Some l) (Some l) d w)
    as (la & Hla & _ & Hgen).
  { cbn. by rewrite Hl. }
  pose proof (Hla l eq_refl) as ->.
  destruct (Hgen (d ∪ arrow_defaults)) as (lt & Hlt & _ & Hinit).
  { cbn. by rewrite lookup_insert_eq. }
  pose proof (Hlt l eq_refl) as ->.
  rewrite Hinit. by rewrite insert_insert_eq.
Qed.

(** ** LegendAnnotation *)

Section Legend.
Variable check_color : value -> result RGBA.

Lemma legend_init_inv labels kwargs w w1 self :
  LegendAnnotation.__init__ check_color labels kwargs w = (w1, Ok self) ->
  LegendAnnotation.check_labels check_color labels w = (w1, Ok tt)
  /\ self = {| LegendAnnotation.labels := labels;
               LegendAnnotation.kwargs := kwargs ∪ legend_defaults |}.
Proof.
  unfold LegendAnnotation.__init__, bind, ret.
  destruct (LegendAnnotation.check_labels check_color labels w)
    as [w' [[]|e]]; [|discriminate].
  rewrite legend_setdefaults. intros. by simplify_eq.
Qed.

Lemma legend_init_checked labels kwargs w w1 :
  LegendAnnotation.check_labels check_color labels w = (w1, Ok tt) ->
  LegendAnnotation.__init__ check_color labels kwargs w
  = (w1, Ok {| LegendAnnotation.labels := labels;
               LegendAnnotation.kwargs := kwargs ∪ legend_defaults |}).
Proof.
  unfold LegendAnnotation.__init__, bind, ret. intros ->.
  by rewrite legend_setdefaults.
Qed.

Lemma legend_render_any self g w :
  let w' := (LegendAnnotation.add_annotation self g w).1 in
  exists calls,
    scene w' = scene w ++ calls
    /\ Forall (forwards_legend (LegendAnnotation.labels self)
                               (LegendAnnotation.kwargs self)) calls.
Proof.
  unfold LegendAnnotation.add_annotation, bind, keywords, draw, ret, raise.
  destruct (forallb _ _); cbn [scene fst].
  - eexists [_]. split; [done|]. by repeat constructor.
  - exists []. by rewrite app_nil_r.
Qed.

Lemma legend_render_ok self g w :
  LegendAnnotation.kwargs self !! "labels" = None ->
  LegendAnnotation.add_annotation self g w
  = ({| heap := heap w;
        scene := scene w ++ [add_legend (LegendAnnotation.labels self)
                                        (LegendAnnotation.kwargs self)] |},
     Ok self).
Proof.
  intros Hk.
  unfold LegendAnnotation.add_annotation, bind, keywords, draw, ret, raise.
  cbn [forallb]. by rewrite Hk, bool_decide_eq_true_2.
Qed.

(** C5 (the code at the failing input). Constructing a LegendAnnotation
    with labels omitted, so None, raises a TypeError in the loop over the
    labels, and the world is left as it was. *)
Theorem C5_labels_None_raises kwargs w :
  LegendAnnotation.__init__ check_color LegendAnnotation.default_labels
                            kwargs w
  = (w, Raise TypeError).
Proof. reflexivity. Qed.

(** C6 (as amended). An empty label list is accepted: the construction
    succeeds and changes nothing, and the render, given no option named
    labels, passes the empty list and the merged options to the legend call
    and succeeds too. *)
Theorem C6_empty_labels_accepted kwargs l w g :
  heap w !! l = Some (OList []) ->
  kwargs !! "labels" = None ->
  let self := {| LegendAnnotation.labels := VRef l;
                 LegendAnnotation.kwargs := kwargs ∪ legend_defaults |} in
  LegendAnnotation.__init__ check_color (VRef l) kwargs w = (w, Ok self)
  /\ LegendAnnotation.add_annotation self g w
     = ({| heap := heap w;
           scene := scene w ++ [add_legend (VRef l)
                                           (kwargs ∪ legend_defaults)] |},
        Ok self).
Proof.
  intros Hl Hk self. split.
  - apply legend_init_checked.
    unfold LegendAnnotation.check_labels. by rewrite Hl.
  - apply legend_render_ok. cbn. by rewrite lookup_merge, Hk.
Qed.
End Legend.

Lemma C6_empty_labels_accepted_witness :
  exists self w',
    LegendAnnotation.__init__ palette (VRef 5%positive) ∅ labels_world
    = (labels_world, Ok self)
    /\ LegendAnnotation.add_annotation self scenario labels_world
       = (w', Ok self)
    /\ new_calls labels_world w' = [add_legend (VRef 5%positive) legend_defaults].
Proof.
  destruct (C6_empty_labels_accepted palette ∅ 5%positive labels_world scenario
              eq_refl (lookup_empty _)) as [Hi Hr].
  eexists _, _. split; [exact Hi|]. split; [exact Hr|].
  unfold new_calls. cbn [scene]. by rewrite (left_id_L ∅ (∪)).
Defined.

(** C6 (as stated) fails: with an empty label list both the construction
    and the first render succeed, and the legend call receives the empty
    list. *)
Lemma C6_counterexample :
  heap labels_world !! 5%positive = Some (OList [])
  /\ exists self w',
      LegendAnnotation.__init__ palette (VRef 5%positive) ∅ labels_world
      = (labels_world, Ok self)
      /\ LegendAnnotation.add_annotation self scenario labels_world
         = (w', Ok self)
      /\ exists kw, scene w' = [add_legend (VRef 5%positive) kw].
Proof.
  split; [reflexivity|].
  eexists _, _. split; [vm_compute; reflexivity|].
  split; [vm_compute; reflexivity|].
  eexists. reflexivity.
Qed.

(** ** The objects of the caller after construction *)

Section LegendLabels.
Variable check_color : value -> result RGBA.

Lemma foldl_normalized_ne (todo : list (loc * list value * RGBA)) h l' :
  l' ∉ todo.*1.*1 -> foldl normalized h todo !! l' = h !! l'.
Proof.
  revert h. induction todo as [|e todo IH]; intros h Hl; [done|].
  cbn [foldl]. rewrite !fmap_cons in Hl.
  apply not_elem_of_cons in Hl as [Hne Hl].
  rewrite IH by done. unfold normalized. by rewrite lookup_insert_ne.
Qed.

Lemma foldl_normalized_eq (todo : list (loc * list value * RGBA)) h e :
  NoDup todo.*1.*1 -> e ∈ todo ->
  foldl normalized h todo !! e.1.1
  = Some (OList (<[1%nat := VRGBA e.2]> e.1.2)).
Proof.
  revert h. induction todo as [|e0 todo IH]; intros h Hnd He.
  { by apply elem_of_nil in He. }
  rewrite !fmap_cons in Hnd. apply NoDup_cons in Hnd as [Hnin Hnd].
  cbn [foldl]. apply elem_of_cons in He as [->|He].
  - rewrite foldl_normalized_ne by done.
    unfold normalized. by rewrite lookup_insert_eq.
  - by apply IH.
Qed.

Lemma for_each_at_spec l (seen todo : list (loc * list value * RGBA)) w :
  heap w !! l = Some (OList (VRef <$> (seen ++ todo).*1.*1)) ->
  NoDup (l :: todo.*1.*1) ->
  Forall (entry_ok check_color (heap w)) todo ->
  LegendAnnotation.for_each_at check_color l (length seen) (length todo) w
  = ({| heap := foldl normalized (heap w) todo; scene := scene w |}, Ok tt).
Proof.
  revert seen w. induction todo as [|e todo IH]; intros seen w Hl Hnd Hok.
  { by destruct w. }
  cbn [length LegendAnnotation.for_each_at foldl]. rewrite Hl.
  assert ((VRef <$> (seen ++ e :: todo).*1.*1) !! length seen
          = Some (VRef e.1.1)) as ->.
  { rewrite !fmap_app, !fmap_cons.
    rewrite lookup_app_r by (by rewrite !length_fmap).
    by rewrite !length_fmap, Nat.sub_diag. }
  apply Forall_cons in Hok as [(He & col & Hcol & Hc) Hok].
  rewrite !fmap_cons in Hnd.
  apply NoDup_cons in Hnd as [Hl' Hnd].
  apply not_elem_of_cons in Hl' as [Hle Hl'].
  apply NoDup_cons in Hnd as [He' Hnd].
  unfold bind at 1, LegendAnnotation.normalize at 1.
  rewrite He, Hcol, Hc. unfold store.
  specialize (IH (seen ++ [e])
                {| heap := normalized (heap w) e; scene := scene w |}).
  rewrite length_app, Nat.add_1_r in IH. cbn [length heap scene] in IH.
  apply IH.
  - unfold normalized. rewrite lookup_insert_ne by done.
    by rewrite <- app_assoc.
  - by apply NoDup_cons.
  - eapply Forall_impl; [apply Forall_forall; intros e1 He1|].
    + instantiate (1 := fun e1 => entry_ok check_color (heap w) e1 /\ e1.1.1 <> e.1.1).
      split; [by eapply Forall_forall in Hok|].
      intros Heq. apply He'. rewrite <- Heq.
      apply list_elem_of_fmap. exists e1.1. split; [done|].
      apply list_elem_of_fmap. by exists e1.
    + intros e1 [[H1 H2] Hne]. split; [|done].
      unfold normalized. by rewrite lookup_insert_ne.
Qed.

(** [LegendAnnotation.__init__] on a list of label lists: every label
    list of the caller gets its colour normalized in place. *)
Lemma legend_init_lists l (entries : list (loc * list value * RGBA))
    kwargs w :
  heap w !! l = Some (OList (VRef <$> entries.*1.*1)) ->
  NoDup (l :: entries.*1.*1) ->
  Forall (entry_ok check_color (heap w)) entries ->
  LegendAnnotation.__init__ check_color (VRef l) kwargs w
  = ({| heap := foldl normalized (heap w) entries; scene := scene w |},
     Ok {| LegendAnnotation.labels := VRef l;
           LegendAnnotation.kwargs := kwargs ∪ legend_defaults |}).
Proof.
  intros Hl Hnd Hok. apply legend_init_checked.
  unfold LegendAnnotation.check_labels. rewrite Hl.
  rewrite !length_fmap.
  by apply (for_each_at_spec l []).
Qed.
End LegendLabels.

(** ** The two calls of an arrow's render *)

Section ArrowCalls.
Import ArrowAnnotation.
Local Open Scope float_scope.

Lemma no_arrow_keyword_forallb kw :
  no_arrow_keyword kw ->
  forallb (fun k => bool_decide (kw !! k = None)) ["cent"; "direction"; "mag"]
  = true.
Proof.
  intros (H1 & H2 & H3). cbn [forallb].
  by rewrite !bool_decide_eq_true_2.
Qed.

Lemma forallb_no_arrow_keyword kw :
  forallb (fun k => bool_decide (kw !! k = None)) ["cent"; "direction"; "mag"]
  = true ->
  no_arrow_keyword kw.
Proof.
  cbn [forallb]. rewrite andb_true_r.
  intros [H1 [H2 H3]%andb_prop]%andb_prop.
  by repeat split; eapply bool_decide_eq_true_1.
Qed.

(** The render from the results of the two setters. *)
Lemma arrow_render_from self g w s1 s2 cent mag akw tkw :
  set_arrow_position self g = Ok s1 ->
  set_arrow_magnitude s1 g = Ok s2 ->
  arrow_cent s2 = Some cent ->
  arrow_magnitude s2 = Some mag ->
  heap w !! arrow_kwargs s2 = Some (ODict akw) ->
  heap w !! text_kwargs s2 = Some (ODict tkw) ->
  no_arrow_keyword akw ->
  add_annotation self g w
  = ({| heap := heap w;
        scene := scene w
                 ++ [add_arrows cent (arrow_direction s2) mag akw;
                     add_point_labels
                       (text_point cent (arrow_direction s2) mag
                                   (text_position s2))
                       [text s2] tkw] |},
     Ok s2).
Proof.
  intros H1 H2 Hc Hm Ha Ht Hk.
  unfold add_annotation, bind, lift, the, unpack, keywords, draw, ret, raise.
  rewrite H1, H2, Hc, Hm, Ha, (no_arrow_keyword_forallb _ Hk).
  cbn [heap scene]. rewrite Ht. cbn [heap scene].
  by rewrite <- app_assoc.
Qed.

(** The defaults bring none of the keywords of the arrow call. *)
Lemma no_arrow_keyword_defaults kw :
  no_arrow_keyword kw ->
  no_arrow_keyword (kw ∪ arrow_defaults)
  /\ no_arrow_keyword (kw ∪ arrow_defaults ∪ text_defaults).
Proof.
  intros (H1 & H2 & H3).
  by repeat split; repeat (apply lookup_union_None_2; [|done]).
Qed.
End ArrowCalls.

Section Options.
Variable Proj : string -> result (float -> float -> float * float).
Variable check_color : value -> result RGBA.

Lemma point_render_any p g w :
  let w' := (PointAnnotation.add_annotation Proj p g w).1 in
  exists calls,
    scene w' = scene w ++ calls
    /\ Forall (fun c => exists pts,
                 c = add_point_labels pts [PointAnnotation.text p]
                                      (PointAnnotation.kwargs p)) calls.
Proof.
  unfold PointAnnotation.add_annotation, bind, lift, the, draw, ret, raise.
  unfold PointAnnotation.reproject_coords.
  destruct (Dataset.pyproj_srs _) as [srs|];
    [|by exists []; rewrite app_nil_r].
  cbn [rbind]. destruct (Proj srs) as [f|];
    [|by exists []; rewrite app_nil_r].
  cbn [rbind]. destruct (f _ _) as [a b].
  cbn [PointAnnotation.latitude_proj PointAnnotation.longitude_proj
       PointAnnotation.height PointAnnotation.text PointAnnotation.kwargs
       scene fst].
  eexists [_]. split; [done|]. repeat constructor. by eexists.
Qed.

(** C8. The options each variant forwards are the caller's mapping merged
    with the variant's defaults: a key of the caller keeps the caller's
    value and a default fills a key only where the caller has none. For an
    arrow built from two distinct (or omitted) dictionaries, every arrow
    call carries the caller's arrow options merged with
    show_scalar_bar = False and color = [0.2, 0.2, 0.2], and every
    text-label call the caller's text options merged with shape = None,
    show_points = False and font_size = 30; when one dictionary is passed
    for both arguments, both calls carry it merged with the defaults of
    both; every legend call carries the
    caller's options merged with bcolor = (0.5, 0.5, 0.5),
    size = (0.2, 0.1), loc = 'lower center' and face = 'rectangle'; a point
    label carries the caller's options as they are.
    And these calls are made. On a context that has the three extents, the
    render of an arrow whose caller gave none of the keys cent, direction
    and mag succeeds and draws exactly the arrow call and then the
    text-label call, each with the merged options. The render of a legend
    whose caller gave no key labels succeeds and draws exactly one legend
    call with the labels and the merged options. The render of a point
    under a projection descriptor that [Proj] accepts succeeds and draws
    exactly one label call with the caller's options. *)
Theorem C8_options_merged :
  (forall caller defaults k,
      (caller ∪ defaults) !! k
      = match caller !! k with
        | Some v => Some v
        | None => (defaults : gmap string value) !! k
        end)
  /\ (forall xp yp zp xd yd zd am txt tp akw tkw da dt w,
         caller_dict w akw = Some da ->
         caller_dict w tkw = Some dt ->
         (forall l, akw = Some l -> tkw <> Some l) ->
         exists w1 self,
           ArrowAnnotation.__init__ xp yp zp xd yd zd am txt tp akw tkw w
           = (w1, Ok self)
           /\ heap w1 !! ArrowAnnotation.arrow_kwargs self
              = Some (ODict (da ∪ arrow_defaults))
           /\ heap w1 !! ArrowAnnotation.text_kwargs self
              = Some (ODict (dt ∪ text_defaults))
           /\ (forall g,
                  Forall (forwards (da ∪ arrow_defaults)
                                   (dt ∪ text_defaults))
                         (new_calls w1
                            (ArrowAnnotation.add_annotation self g w1).1))
           /\ (forall g xlo xhi ylo yhi zlo zhi,
                  extent g (Glacier3DViz.x g) = Ok (xlo, xhi) ->
                  extent g (Glacier3DViz.y g) = Ok (ylo, yhi) ->
                  extent g (Glacier3DViz.topo_bedrock g) = Ok (zlo, zhi) ->
                  no_arrow_keyword da ->
                  let cent := [[ArrowAnnotation.get_position xlo xhi xp;
                                ArrowAnnotation.get_position ylo yhi yp;
                                ArrowAnnotation.get_position zlo zhi zp]] in
                  let mag := ((yhi - ylo) * am)%float in
                  exists w2 self',
                    ArrowAnnotation.add_annotation self g w1 = (w2, Ok self')
                    /\ new_calls w1 w2
                       = [add_arrows cent [[xd; yd; zd]] mag
                                     (da ∪ arrow_defaults);
                          add_point_labels
                            (ArrowAnnotation.text_point
                               cent [[xd; yd; zd]] mag tp)
                            [txt] (dt ∪ text_defaults)]))
  /\ (forall xp yp zp xd yd zd am txt tp l d w,
         heap w !! l = Some (ODict d) ->
         exists w1 self,
           ArrowAnnotation.__init__ xp yp zp xd yd zd am txt tp
                                    (Some l) (Some l) w
           = (w1, Ok self)
           /\ (forall g,
                  Forall (forwards (d ∪ arrow_defaults ∪ text_defaults)
                                   (d ∪ arrow_defaults ∪ text_defaults))
                         (new_calls w1
                            (ArrowAnnotation.add_annotation self g w1).1))
           /\ (forall g xlo xhi ylo yhi zlo zhi,
                  extent g (Glacier3DViz.x g) = Ok (xlo, xhi) ->
                  extent g (Glacier3DViz.y g) = Ok (ylo, yhi) ->
                  extent g (Glacier3DViz.topo_bedrock g) = Ok (zlo, zhi) ->
                  no_arrow_keyword d ->
                  let cent := [[ArrowAnnotation.get_position xlo xhi xp;
                                ArrowAnnotation.get_position ylo yhi yp;
                                ArrowAnnotation.get_position zlo zhi zp]] in
                  let mag := ((yhi - ylo) * am)%float in
                  exists w2 self',
                    ArrowAnnotation.add_annotation self g w1 = (w2, Ok self')
                    /\ new_calls w1 w2
                       = [add_arrows cent [[xd; yd; zd]] mag
                                     (d ∪ arrow_defaults ∪ text_defaults);
                          add_point_labels
                            (ArrowAnnotation.text_point
                               cent [[xd; yd; zd]] mag tp)
                            [txt] (d ∪ arrow_defaults ∪ text_defaults)]))
  /\ (forall labels kwargs w w1 self,
         LegendAnnotation.__init__ check_color labels kwargs w
         = (w1, Ok self) ->
         LegendAnnotation.kwargs self = kwargs ∪ legend_defaults
         /\ (forall g,
                Forall (forwards_legend labels (kwargs ∪ legend_defaults))
                       (new_calls w1
                          (LegendAnnotation.add_annotation self g w1).1))
         /\ (kwargs !! "labels" = None ->
             forall g,
             exists w2,
               LegendAnnotation.add_annotation self g w1 = (w2, Ok self)
               /\ new_calls w1 w2
                  = [add_legend labels (kwargs ∪ legend_defaults)]))
  /\ (forall lat lon h txt kwargs g w,
         Forall (fun c => exists pts, c = add_point_labels pts [txt] kwargs)
                (new_calls w
                   (PointAnnotation.add_annotation Proj
                      (PointAnnotation.__init__ lat lon h txt kwargs)
                      g w).1)
         /\ (forall srs f,
                Dataset.pyproj_srs (Glacier3DViz.dataset g) = Ok srs ->
                Proj srs = Ok f ->
                exists w2 self',
                  PointAnnotation.add_annotation Proj
                    (PointAnnotation.__init__ lat lon h txt kwargs) g w
                  = (w2, Ok self')
                  /\ new_calls w w2
                     = [add_point_labels [[(f lat lon).1; (f lat lon).2; h]]
                                         [txt] kwargs])).
Proof.
  split; [apply lookup_merge|]. split; [|split; [|split]].
  - intros xp yp zp xd yd zd am txt tp akw tkw da dt w Ha Ht Hne.
    destruct (arrow_init_spec xp yp zp xd yd zd am txt tp akw tkw da dt w
                Ha Ht Hne) as (la & lt & _ & _ & Hd & Hinit).
    eexists _, _. split; [exact Hinit|].
    cbn [ArrowAnnotation.arrow_kwargs ArrowAnnotation.text_kwargs heap].
    assert (forall h : gmap loc obj,
               <[lt := ODict (dt ∪ text_defaults)]>
                 (<[la := ODict (da ∪ arrow_defaults)]> h) !! la
               = Some (ODict (da ∪ arrow_defaults))) as Hla.
    { intros h. rewrite lookup_insert_ne by done. apply lookup_insert_eq. }
    split; [apply Hla|]. split; [apply lookup_insert_eq|]. split.
    + intros g.
      match goal with
      | |- context [ArrowAnnotation.add_annotation ?s g ?w1] =>
          destruct (arrow_render_any s g w1) as (_ & calls & Hs & Hc)
      end.
      unfold new_calls. rewrite Hs, drop_app_length.
      eapply Forall_impl; [exact Hc|].
      cbn [ArrowAnnotation.arrow_kwargs ArrowAnnotation.text_kwargs heap].
      intros [pts ls kw|c d m kw|l tex|ls kw]; cbn [forwards]; try done.
      * rewrite lookup_insert_eq. by intros [= ->].
      * rewrite Hla. by intros [= ->].
    + intros g xlo xhi ylo yhi zlo zhi Hx Hy Hz Hk.
      pose (cent := [[ArrowAnnotation.get_position xlo xhi xp;
                      ArrowAnnotation.get_position ylo yhi yp;
                      ArrowAnnotation.get_position zlo zhi zp]]).
      pose (mag := ((yhi - ylo) * am)%float).
      match goal with
      | |- context [ArrowAnnotation.add_annotation ?s g ?w1] =>
          pose proof (arrow_render_from s g w1
                        (ArrowAnnotation.with_arrow_cent s cent)
                        (ArrowAnnotation.with_arrow_magnitude
                           (ArrowAnnotation.with_arrow_cent s cent) mag)
                        cent mag (da ∪ arrow_defaults) (dt ∪ text_defaults)
                        (set_arrow_position_extent s g _ _ _ _ _ _ Hx Hy Hz)
                        (set_arrow_magnitude_extent
                           (ArrowAnnotation.with_arrow_cent s cent) g _ _ Hy)
                        eq_refl eq_refl (Hla _) (lookup_insert_eq _ _ _)
                        (proj1 (no_arrow_keyword_defaults _ Hk))) as Hrender
      end.
      eexists _, _. split; [exact Hrender|].
      unfold new_calls. cbn [scene]. by rewrite drop_app_length.
  - intros xp yp zp xd yd zd am txt tp l d w Hl.
    eexists _, _. split; [by apply arrow_init_shared|]. split.
    + intros g.
      match goal with
      | |- context [ArrowAnnotation.add_annotation ?s g ?w1] =>
          destruct (arrow_render_any s g w1) as (_ & calls & Hs & Hc)
      end.
      unfold new_calls. rewrite Hs, drop_app_length.
      eapply Forall_impl; [exact Hc|].
      cbn [ArrowAnnotation.arrow_kwargs ArrowAnnotation.text_kwargs heap].
      intros [pts ls kw|c d' m kw|l' tex|ls kw]; cbn [forwards]; try done;
        rewrite lookup_insert_eq; by intros [= ->].
    + intros g xlo xhi ylo yhi zlo zhi Hx Hy Hz Hk cent mag.
      match goal with
      | |- context [ArrowAnnotation.add_annotation ?s g ?w1] =>
          pose proof (arrow_render_from s g w1
                        (ArrowAnnotation.with_arrow_cent s cent)
                        (ArrowAnnotation.with_arrow_magnitude
                           (ArrowAnnotation.with_arrow_cent s cent) mag)
                        cent mag (d ∪ arrow_defaults ∪ text_defaults)
                        (d ∪ arrow_defaults ∪ text_defaults)
                        (set_arrow_position_extent s g _ _ _ _ _ _ Hx Hy Hz)
                        (set_arrow_magnitude_extent
                           (ArrowAnnotation.with_arrow_cent s cent) g _ _ Hy)
                        eq_refl eq_refl (lookup_insert_eq _ _ _)
                        (lookup_insert_eq _ _ _)
                        (proj2 (no_arrow_keyword_defaults _ Hk))) as Hrender
      end.
      eexists _, _. split; [exact Hrender|].
      unfold new_calls. cbn [scene]. by rewrite drop_app_length.
  - intros labels kwargs w w1 self [_ ->]%legend_init_inv.
    split; [done|]. split.
    + intros g.
      match goal with
      | |- context [LegendAnnotation.add_annotation ?s g ?w1] =>
          destruct (legend_render_any s g w1) as (calls & Hs & Hc)
      end.
      unfold new_calls. by rewrite Hs, drop_app_length.
    + intros Hk g. eexists. split.
      * apply legend_render_ok. cbn [LegendAnnotation.kwargs].
        by apply lookup_union_None_2.
      * unfold new_calls. cbn [scene]. by rewrite drop_app_length.
  - intros lat lon h txt kwargs g w. split.
    + match goal with
      | |- context [PointAnnotation.add_annotation Proj ?s g w] =>
          destruct (point_render_any s g w) as (calls & Hs & Hc)
      end.
      unfold new_calls. by rewrite Hs, drop_app_length.
    + intros srs f Hs Hf.
      unfold PointAnnotation.add_annotation, bind, lift, the, draw, ret,
        PointAnnotation.reproject_coords, PointAnnotation.__init__.
      rewrite Hs. cbn [rbind]. rewrite Hf. cbn [rbind].
      cbn [PointAnnotation.latitude PointAnnotation.longitude].
      destruct (f lat lon) as [a b].
      eexists _, _. split; [reflexivity|].
      unfold new_calls. cbn [scene fst snd]. by rewrite drop_app_length.
Qed.

(** C10. Construction changes the caller's own objects. Given a list of
    distinct label lists whose colours [check_color] accepts,
    [LegendAnnotation.__init__] writes the normalized colour into entry 1
    of every label list, leaves every other object alone, and keeps a
    reference to the caller's list. Given two distinct dictionaries,
    [ArrowAnnotation.__init__] leaves in each of them the caller's keys
    merged with the defaults, and the arrow refers to these same two
    objects. An object whose contents were not already the result has
    changed. *)
Theorem C10_constructors_write_arguments :
  (forall l (entries : list (loc * list value * RGBA)) kwargs w,
      heap w !! l = Some (OList (VRef <$> entries.*1.*1)) ->
      NoDup (l :: entries.*1.*1) ->
      Forall (entry_ok check_color (heap w)) entries ->
      exists w1 self,
        LegendAnnotation.__init__ check_color (VRef l) kwargs w
        = (w1, Ok self)
        /\ LegendAnnotation.labels self = VRef l
        /\ (forall e, e ∈ entries ->
                      heap w1 !! e.1.1
                      = Some (OList (<[1%nat := VRGBA e.2]> e.1.2))
                      /\ (e.1.2 !! 1%nat <> Some (VRGBA e.2) ->
                          heap w1 !! e.1.1 <> heap w !! e.1.1))
        /\ (forall l', l' ∉ entries.*1.*1 -> heap w1 !! l' = heap w !! l'))
  /\ (forall xp yp zp xd yd zd am txt tp la lt da dt w,
         heap w !! la = Some (ODict da) ->
         heap w !! lt = Some (ODict dt) ->
         la <> lt ->
         exists w1 self,
           ArrowAnnotation.__init__ xp yp zp xd yd zd am txt tp
                                    (Some la) (Some lt) w
           = (w1, Ok self)
           /\ ArrowAnnotation.arrow_kwargs self = la
           /\ ArrowAnnotation.text_kwargs self = lt
           /\ heap w1 !! la = Some (ODict (da ∪ arrow_defaults))
           /\ heap w1 !! lt = Some (ODict (dt ∪ text_defaults))
           /\ (forall k, is_Some (arrow_defaults !! k) -> da !! k = None ->
                         heap w1 !! la <> heap w !! la)
           /\ (forall k, is_Some (text_defaults !! k) -> dt !! k = None ->
                         heap w1 !! lt <> heap w !! lt)).
Proof.
  split.
  - intros l entries kwargs w Hl Hnd Hok.
    eexists _, _. split; [by apply legend_init_lists|].
    cbn [LegendAnnotation.labels heap]. split; [done|].
    apply NoDup_cons in Hnd as [_ Hnd]. split.
    + intros e He. rewrite foldl_normalized_eq by done. split; [done|].
      rewrite Forall_forall in Hok. destruct (Hok e He) as [-> _].
      intros Hne [= Heq]. apply Hne. rewrite <- Heq at 1.
      apply list_lookup_insert_eq.
      destruct (Hok e He) as (_ & col & Hcol & _).
      by eapply lookup_lt_Some.
    + intros l' Hl'. by apply foldl_normalized_ne.
  - intros xp yp zp xd yd zd am txt tp la lt da dt w Ha Ht Hne.
    destruct (arrow_init_spec xp yp zp xd yd zd am txt tp (Some la) (Some lt)
                da dt w) as (la' & lt' & Hla & Hlt & _ & Hinit).
    { cbn. by rewrite Ha. }
    { cbn. by rewrite Ht. }
    { intros l [= ->]. congruence. }
    rewrite (Hla la eq_refl), (Hlt lt eq_refl) in Hinit.
    eexists _, _. split; [exact Hinit|].
    cbn [ArrowAnnotation.arrow_kwargs ArrowAnnotation.text_kwargs heap].
    split; [done|]. split; [done|].
    rewrite lookup_insert_ne by done. rewrite !lookup_insert_eq.
    split; [done|]. split; [done|]. split.
    + intros k [v Hv] Hk. rewrite Ha. intros [= Heq].
      assert ((da ∪ arrow_defaults) !! k = Some v) as Hu
          by (by rewrite lookup_merge, Hk).
      rewrite Heq in Hu. congruence.
    + intros k [v Hv] Hk. rewrite Ht. intros [= Heq].
      assert ((dt ∪ text_defaults) !! k = Some v) as Hu
          by (by rewrite lookup_merge, Hk).
      rewrite Heq in Hu. congruence.
Qed.
End Options.

Lemma C8_options_merged_witness :
  exists w1 self w2 self' kw,
    ArrowAnnotation.__init__ 0.5 0.5 0.5 0 1 0 0.1 "N" 1.3
                             (Some 2%positive) (Some 3%positive) caller_world
    = (w1, Ok self)
    /\ heap w1 !! ArrowAnnotation.arrow_kwargs self = Some (ODict kw)
    /\ kw !! "color" = Some (VStr "red")
    /\ kw !! "show_scalar_bar" = Some (VBool false)
    /\ ArrowAnnotation.add_annotation self scenario w1 = (w2, Ok self')
    /\ new_calls w1 w2
       = [add_arrows [[5; 10; 150]] [[0; 1; 0]] 2 kw;
          add_point_labels [[5; 12.6; 150]] ["N"]
            ({[ "font_size" := VInt 12; "bold" := VBool true ]}
               ∪ text_defaults)]%float.
Proof.
  destruct (C8_options_merged (fun _ => Raise CRSError) palette)
    as (Hmerge & Harrow & _).
  destruct (Harrow 0.5 0.5 0.5 0 1 0 0.1 "N" 1.3
              (Some 2%positive) (Some 3%positive)
              {[ "color" := VStr "red" ]}
              {[ "font_size" := VInt 12; "bold" := VBool true ]}
              caller_world)%float
    as (w1 & self & Hinit & Ha & Ht & _ & Hcalls).
  - vm_compute. reflexivity.
  - vm_compute. reflexivity.
  - intros l [= <-]. discriminate.
  - destruct (Hcalls scenario 0 10 0 20 100 200 eq_refl eq_refl eq_refl)%float
      as (w2 & self' & Hrender & Hnew).
    { by repeat split. }
    exists w1, self, w2, self', ({[ "color" := VStr "red" ]} ∪ arrow_defaults).
    split; [exact Hinit|]. split; [exact Ha|].
    rewrite !Hmerge. split; [by vm_compute|]. split; [by vm_compute|].
    split; [exact Hrender|].
    rewrite Hnew. repeat f_equal; vm_compute; reflexivity.
Defined.

Lemma C10_constructors_write_arguments_witness :
  (exists w1 self,
      LegendAnnotation.__init__ palette (VRef 2%positive) ∅ labels_world
      = (w1, Ok self)
      /\ heap labels_world !! 3%positive
         = Some (OList [VStr "ice"; VStr "blue"])
      /\ heap w1 !! 3%positive
         = Some (OList [VStr "ice"; VRGBA (mkRGBA x00 x00 xff xff)])
      /\ heap w1 !! 4%positive
         = Some (OList [VStr "rock"; VRGBA (mkRGBA x64 x64 x64 xff)]))
  /\ (exists w1 self,
         ArrowAnnotation.__init__ 0.5 0.5 0.5 0 1 0 0.1 "N" 1.3
                                  (Some 2%positive) (Some 3%positive)
                                  caller_world
         = (w1, Ok self)
         /\ ArrowAnnotation.arrow_kwargs self = 2%positive
         /\ heap w1 !! 2%positive
            = Some (ODict ({[ "color" := VStr "red" ]} ∪ arrow_defaults))
         /\ heap w1 !! 2%positive <> heap caller_world !! 2%positive).
Proof.
  destruct (C10_constructors_write_arguments palette) as [Hlegend Harrow].
  split.
  - destruct (Hlegend 2%positive
                [(3%positive, [VStr "ice"; VStr "blue"],
                  mkRGBA x00 x00 xff xff);
                 (4%positive,
                  [VStr "rock";
                   VSeq [VInt 100; VInt 100; VInt 100; VInt 255]],
                  mkRGBA x64 x64 x64 xff)]
                ∅ labels_world)
      as (w1 & self & Hinit & _ & Hentries & _).
    + vm_compute. reflexivity.
    + apply (bool_decide_unpack _). vm_compute. reflexivity.
    + repeat constructor; (try by vm_compute);
        eexists; split; vm_compute; reflexivity.
    + exists w1, self. split; [exact Hinit|].
      split; [vm_compute; reflexivity|]. split.
      * refine (proj1 (Hentries (3%positive, [VStr "ice"; VStr "blue"],
                                  mkRGBA x00 x00 xff xff) _)).
        apply elem_of_cons. by left.
      * refine (proj1 (Hentries
                         (4%positive,
                          [VStr "rock";
                           VSeq [VInt 100; VInt 100; VInt 100; VInt 255]],
                          mkRGBA x64 x64 x64 xff) _)).
        apply elem_of_cons. right. apply elem_of_cons. by left.
  - destruct (Harrow 0.5 0.5 0.5 0 1 0 0.1 "N" 1.3
                2%positive 3%positive
                {[ "color" := VStr "red" ]}
                {[ "font_size" := VInt 12; "bold" := VBool true ]}
                caller_world)%float
      as (w1 & self & Hinit & Hla & _ & Ha & _ & Hchanged & _).
    + vm_compute. reflexivity.
    + vm_compute. reflexivity.
    + discriminate.
    + exists w1, self. split; [exact Hinit|]. split; [exact Hla|].
      split; [exact Ha|].
      apply (Hchanged "show_scalar_bar").
      * eexists. vm_compute. reflexivity.
      * vm_compute. reflexivity.
Defined.

(** The legend of the specification's scenario: both colours are
    normalized in the caller's lists, and the legend call receives the
    caller's list with the four default options. *)
Example legend_scenario :
  exists w1 self w2,
    LegendAnnotation.__init__ palette (VRef 2%positive) ∅ labels_world
    = (w1, Ok self)
    /\ LegendAnnotation.add_annotation self scenario w1 = (w2, Ok self)
    /\ scene w2 = [add_legend (VRef 2%positive) legend_defaults]
    /\ heap w2 !! 2%positive = Some (OList [VRef 3%positive; VRef 4%positive])
    /\ heap w2 !! 3%positive
       = Some (OList [VStr "ice"; VRGBA (mkRGBA x00 x00 xff xff)])
    /\ heap w2 !! 4%positive
       = Some (OList [VStr "rock"; VRGBA (mkRGBA x64 x64 x64 xff)]).
Proof.
  eexists _, _, _. split; [vm_compute; reflexivity|].
  split; [vm_compute; reflexivity|].
  repeat split; vm_compute; reflexivity.
Qed.

(** * Further properties of the module *)

(** ** ArrowAnnotation: when the render succeeds, and how it fails *)

Section ArrowOutcomes.
Import ArrowAnnotation.
Local Open Scope float_scope.

(** X1. Given extents of the x, y and bedrock fields and two dictionaries
    of which the arrow's has none of the keys cent, direction and mag, the
    render succeeds: it leaves the heap as it is, appends the arrow call
    and then the text call, and returns the arrow with its anchor and
    magnitude set and nothing else changed. *)
Theorem arrow_render_succeeds self g w xlo xhi ylo yhi zlo zhi akw tkw :
  extent g (Glacier3DViz.x g) = Ok (xlo, xhi) ->
  extent g (Glacier3DViz.y g) = Ok (ylo, yhi) ->
  extent g (Glacier3DViz.topo_bedrock g) = Ok (zlo, zhi) ->
  heap w !! arrow_kwargs self = Some (ODict akw) ->
  heap w !! text_kwargs self = Some (ODict tkw) ->
  no_arrow_keyword akw ->
  let cent := [[get_position xlo xhi (x_position self);
                get_position ylo yhi (y_position self);
                get_position zlo zhi (z_position self)]] in
  let mag := (yhi - ylo) * arrow_magnitude_relative self in
  add_annotation self g w
  = ({| heap := heap w;
        scene := scene w
                 ++ [add_arrows cent (arrow_direction self) mag akw;
                     add_point_labels
                       (text_point cent (arrow_direction self) mag
                                   (text_position self))
                       [text self] tkw] |},
     Ok (with_arrow_magnitude (with_arrow_cent self cent) mag)).
Proof.
  intros Hx Hy Hz Ha Ht Hk cent mag.
  apply (arrow_render_from self g w (with_arrow_cent self cent)
           (with_arrow_magnitude (with_arrow_cent self cent) mag));
    try done.
  - by apply set_arrow_position_extent.
  - exact (set_arrow_magnitude_extent (with_arrow_cent self cent) g ylo yhi
             Hy).
Qed.

(** X2. A field that the dataset lacks stops the render with a KeyError
    that names it, x before y before bedrock, and the world is left as it
    was: nothing is drawn. *)
Theorem arrow_render_missing_field self g w :
  let vars := Dataset.data_vars (Glacier3DViz.dataset g) in
  (vars !! Glacier3DViz.x g = None ->
   add_annotation self g w = (w, Raise (KeyError (Glacier3DViz.x g))))
  /\ (forall xlo xhi,
         extent g (Glacier3DViz.x g) = Ok (xlo, xhi) ->
         vars !! Glacier3DViz.y g = None ->
         add_annotation self g w = (w, Raise (KeyError (Glacier3DViz.y g))))
  /\ (forall xlo xhi ylo yhi,
         extent g (Glacier3DViz.x g) = Ok (xlo, xhi) ->
         extent g (Glacier3DViz.y g) = Ok (ylo, yhi) ->
         vars !! Glacier3DViz.topo_bedrock g = None ->
         add_annotation self g w
         = (w, Raise (KeyError (Glacier3DViz.topo_bedrock g)))).
Proof.
  cbv zeta. split; [|split].
  - intros Hx. unfold add_annotation, bind, lift, set_arrow_position,
      Dataset.getitem. by rewrite Hx.
  - intros xlo xhi (xs & Hx & Hx1 & Hx2)%extent_inv Hy.
    unfold add_annotation, bind, lift, set_arrow_position.
    rewrite Hx. cbn [rbind]. rewrite Hx1, Hx2. cbn [rbind].
    unfold Dataset.getitem. by rewrite Hy.
  - intros xlo xhi ylo yhi (xs & Hx & Hx1 & Hx2)%extent_inv
           (ys & Hy & Hy1 & Hy2)%extent_inv Hz.
    unfold add_annotation, bind, lift, set_arrow_position.
    rewrite Hx. cbn [rbind]. rewrite Hx1, Hx2. cbn [rbind].
    rewrite Hy. cbn [rbind]. rewrite Hy1, Hy2. cbn [rbind].
    unfold Dataset.getitem. by rewrite Hz.
Qed.

(** X3. An arrow dictionary that holds one of the keys cent, direction or
    mag, which the arrow call gives itself, stops the render with a
    TypeError before anything is drawn: neither the arrow nor its text. *)
Theorem arrow_render_keyword_clash self g w xlo xhi ylo yhi zlo zhi akw k :
  extent g (Glacier3DViz.x g) = Ok (xlo, xhi) ->
  extent g (Glacier3DViz.y g) = Ok (ylo, yhi) ->
  extent g (Glacier3DViz.topo_bedrock g) = Ok (zlo, zhi) ->
  heap w !! arrow_kwargs self = Some (ODict akw) ->
  k ∈ ["cent"; "direction"; "mag"] ->
  is_Some (akw !! k) ->
  add_annotation self g w = (w, Raise TypeError).
Proof.
  intros Hx Hy Hz Ha Hk [v Hv].
  unfold add_annotation, bind, lift, the, unpack, keywords, draw, ret, raise.
  rewrite (set_arrow_position_extent _ _ _ _ _ _ _ _ Hx Hy Hz).
  rewrite (set_arrow_magnitude_extent _ _ _ _ Hy).
  cbn [arrow_cent arrow_magnitude with_arrow_cent with_arrow_magnitude
       arrow_kwargs].
  rewrite Ha.
  assert (forallb (fun k => bool_decide (akw !! k = None))
                  ["cent"; "direction"; "mag"] = false) as ->; [|done].
  apply not_true_iff_false. intros (H1 & H2 & H3)%forallb_no_arrow_keyword.
  repeat (apply elem_of_cons in Hk as [->|Hk]; [congruence|]).
  by apply elem_of_nil in Hk.
Qed.
End ArrowOutcomes.

Lemma arrow_render_succeeds_witness :
  exists self',
    ArrowAnnotation.add_annotation scenario_arrow scenario arrow_world
    = ({| heap := heap arrow_world;
          scene := [add_arrows [[5; 10; 150]] [[0; 1; 0]] 2 ∅;
                    add_point_labels [[5; 12.6; 150]] ["N"] ∅]%float |},
       Ok self')
    /\ ArrowAnnotation.arrow_cent self' = Some [[5; 10; 150]]%float
    /\ ArrowAnnotation.arrow_magnitude self' = Some 2%float.
Proof.
  eexists. split.
  - etrans.
    + apply (arrow_render_succeeds scenario_arrow scenario arrow_world
               0 10 0 20 100 200 ∅ ∅)%float; try reflexivity.
      repeat split; apply lookup_empty.
    + vm_compute. reflexivity.
  - split; vm_compute; reflexivity.
Defined.

Lemma arrow_render_missing_field_witness :
  ArrowAnnotation.add_annotation scenario_arrow
    (Glacier3DViz.mk (Glacier3DViz.dataset scenario) "x" "northing" "bedrock"
                     1%positive)
    arrow_world
  = (arrow_world, Raise (KeyError "northing")).
Proof.
  refine (proj1 (proj2 (arrow_render_missing_field scenario_arrow
            (Glacier3DViz.mk (Glacier3DViz.dataset scenario)
                             "x" "northing" "bedrock" 1%positive)
            arrow_world)) 0%float 10%float _ _);
    vm_compute; reflexivity.
Defined.

Lemma arrow_render_keyword_clash_witness :
  ArrowAnnotation.add_annotation scenario_arrow scenario
    {| heap := <[2%positive := ODict {[ "mag" := VFloat 3 ]}]>
                 (heap arrow_world);
       scene := [] |}
  = ({| heap := <[2%positive := ODict {[ "mag" := VFloat 3 ]}]>
                  (heap arrow_world);
        scene := [] |}, Raise TypeError).
Proof.
  apply (arrow_render_keyword_clash scenario_arrow scenario _
           0 10 0 20 100 200 {[ "mag" := VFloat 3 ]} "mag")%float;
    try reflexivity.
  - apply (bool_decide_unpack _). vm_compute. reflexivity.
  - eexists. vm_compute. reflexivity.
Defined.

(** ** ArrowAnnotation: rendering again *)

Section ArrowAgain.
Import ArrowAnnotation.
Local Open Scope float_scope.

(** The anchor is computed from the position fractions and the context
    alone: the other fields of the arrow, the anchor of an earlier render
    among them, do not enter. *)
Lemma set_arrow_position_congr self other g :
  x_position other = x_position self ->
  y_position other = y_position self ->
  z_position other = z_position self ->
  set_arrow_position other g
  = rbind (set_arrow_position self g)
          (fun s => match arrow_cent s with
                    | Some c => Ok (with_arrow_cent other c)
                    | None => Raise TypeError
                    end).
Proof.
  intros Hx Hy Hz. unfold set_arrow_position. rewrite Hx, Hy, Hz.
  repeat match goal with
         | |- context [rbind ?m _] =>
             destruct m; cbn [rbind]; [|reflexivity]
         end.
  reflexivity.
Qed.

Lemma set_arrow_magnitude_congr self other g :
  arrow_magnitude_relative other = arrow_magnitude_relative self ->
  set_arrow_magnitude other g
  = rbind (set_arrow_magnitude self g)
          (fun s => match arrow_magnitude s with
                    | Some m => Ok (with_arrow_magnitude other m)
                    | None => Raise TypeError
                    end).
Proof.
  intros Hr. unfold set_arrow_magnitude. rewrite Hr.
  repeat match goal with
         | |- context [rbind ?m _] =>
             destruct m; cbn [rbind]; [|reflexivity]
         end.
  reflexivity.
Qed.

Lemma arrow_render_ok_keywords self g w w' self' akw :
  add_annotation self g w = (w', Ok self') ->
  heap w !! arrow_kwargs self' = Some (ODict akw) ->
  no_arrow_keyword akw.
Proof.
  unfold add_annotation, bind, lift, the, unpack, keywords, draw, ret, raise.
  intros H Ha.
  destruct (set_arrow_position self g) as [s1|] eqn:E1; [|discriminate].
  destruct (set_arrow_magnitude s1 g) as [s2|] eqn:E2; [|discriminate].
  destruct (arrow_cent s2) as [cent|]; [|discriminate].
  destruct (arrow_magnitude s2) as [mag|]; [|discriminate].
  destruct (heap w !! arrow_kwargs s2) as [[| akw' |]|] eqn:Ea;
    try discriminate.
  destruct (forallb _ _) eqn:Hk; [|discriminate].
  cbn [heap scene] in H.
  destruct (heap w !! text_kwargs s2) as [[| tkw |]|]; try discriminate.
  cbn [heap scene] in H. simplify_eq.
  by apply forallb_no_arrow_keyword.
Qed.

(** X4. A render that succeeded can be repeated: the arrow it returned
    differs from the one it was given in its anchor and magnitude only, and
    rendering that arrow again in the resulting world succeeds, returns the
    same arrow, and appends the same two calls once more. The anchor and
    magnitude of the first render are overwritten, not accumulated. *)
Theorem arrow_render_again self g w w' self' :
  add_annotation self g w = (w', Ok self') ->
  (exists cent mag,
      self' = with_arrow_magnitude (with_arrow_cent self cent) mag)
  /\ add_annotation self' g w'
     = ({| heap := heap w'; scene := scene w' ++ new_calls w w' |}, Ok self').
Proof.
  intros H.
  pose proof (arrow_render_ok _ _ _ _ _ H)
    as (s1 & cent & mag & akw & tkw & H1 & H2 & Hc & Hm & Ha & Ht & Hh & Hs).
  pose proof (arrow_render_ok_keywords _ _ _ _ _ _ H Ha) as Hk.
  destruct (set_arrow_position_fields _ _ _ H1) as [c ->].
  destruct (set_arrow_magnitude_fields _ _ _ H2) as [m ->].
  cbn in Hc, Hm. simplify_eq.
  split; [by eexists _, _|].
  set (self' := with_arrow_magnitude (with_arrow_cent self cent) mag) in *.
  unfold new_calls. rewrite Hs, drop_app_length. rewrite <- Hs.
  apply (arrow_render_from self' g w' self' self' cent mag akw tkw);
    [ rewrite (set_arrow_position_congr self self' g) by done; by rewrite H1
    | rewrite (set_arrow_magnitude_congr (with_arrow_cent self cent) self' g)
        by done; by rewrite H2
    | done | done | by rewrite Hh | by rewrite Hh | done ].
Qed.
End ArrowAgain.

Lemma arrow_render_again_witness :
  exists w' self',
    ArrowAnnotation.add_annotation scenario_arrow scenario arrow_world
    = (w', Ok self')
    /\ exists w'',
      ArrowAnnotation.add_annotation self' scenario w' = (w'', Ok self')
      /\ length (scene w'') = 4%nat.
Proof.
  eexists _, _. split; [vm_compute; reflexivity|].
  eexists. split.
  - refine (proj2 (arrow_render_again scenario_arrow scenario arrow_world
                     _ _ _)).
    vm_compute. reflexivity.
  - vm_compute. reflexivity.
Defined.

(** ** PointAnnotation *)

Section PointOutcomes.
Variable Proj : string -> result (float -> float -> float * float).
Import PointAnnotation.

(** X5. With a projection descriptor that [Proj] accepts, the render of a
    point succeeds and appends one point-label call: the transformation is
    applied to (latitude, longitude) in this order, its first result is the
    x and its second the y of the point, the height is the z, and the
    options are the ones given at construction. The heap is left as it
    is. *)
Theorem point_render_succeeds self g w srs f :
  Dataset.pyproj_srs (Glacier3DViz.dataset g) = Ok srs ->
  Proj srs = Ok f ->
  let ab := f (latitude self) (longitude self) in
  add_annotation Proj self g w
  = ({| heap := heap w;
        scene := scene w
                 ++ [add_point_labels [[ab.1; ab.2; height self]]
                                      [text self] (kwargs self)] |},
     Ok {| latitude := latitude self;
           longitude := longitude self;
           height := height self;
           latitude_proj := Some ab.1;
           longitude_proj := Some ab.2;
           text := text self;
           kwargs := kwargs self |}).
Proof.
  intros Hs Hf ab.
  unfold add_annotation, bind, lift, the, draw, ret, reproject_coords.
  rewrite Hs. cbn [rbind]. rewrite Hf. cbn [rbind].
  subst ab. by destruct (f _ _) as [a b].
Qed.

(** X6. A dataset without a projection descriptor, or a descriptor that
    [Proj] rejects, stops the render of a point with that error, and the
    world is left as it was: no label is drawn. *)
Theorem point_render_rejected self g w e :
  (Dataset.pyproj_srs (Glacier3DViz.dataset g) = Raise e ->
   add_annotation Proj self g w = (w, Raise e))
  /\ (forall srs,
         Dataset.pyproj_srs (Glacier3DViz.dataset g) = Ok srs ->
         Proj srs = Raise e ->
         add_annotation Proj self g w = (w, Raise e)).
Proof.
  split.
  - intros Hs. unfold add_annotation, bind, lift, reproject_coords.
    by rewrite Hs.
  - intros srs Hs Hf. unfold add_annotation, bind, lift, reproject_coords.
    rewrite Hs. cbn [rbind]. by rewrite Hf.
Qed.

Lemma point_render_cases self g w :
  (exists e, add_annotation Proj self g w = (w, Raise e))
  \/ (exists c s,
         draws (Point self) c
         /\ add_annotation Proj self g w
            = ({| heap := heap w; scene := scene w ++ [c] |}, Ok s)).
Proof.
  destruct (Dataset.pyproj_srs (Glacier3DViz.dataset g)) as [srs|e] eqn:Hs.
  - destruct (Proj srs) as [f|e] eqn:Hf.
    + right. eexists _, _.
      split; [|exact (point_render_succeeds self g w srs f Hs Hf)]. done.
    + left. exists e. exact (proj2 (point_render_rejected self g w e)
                                   srs Hs Hf).
  - left. exists e. exact (proj1 (point_render_rejected self g w e) Hs).
Qed.
End PointOutcomes.

Lemma point_render_succeeds_witness :
  exists self',
    PointAnnotation.add_annotation example_proj summit projected world0
    = ({| heap := heap world0;
          scene := [add_point_labels [[46500; 8000; 3000]]%float ["summit"]
                                     {[ "font_size" := VInt 20 ]}] |},
       Ok self').
Proof.
  eexists. etrans.
  - apply (point_render_succeeds example_proj summit projected world0
             "+proj=utm +zone=32" (fun a b => (a * 1000, b * 1000)%float));
      vm_compute; reflexivity.
  - vm_compute. reflexivity.
Defined.

Lemma point_render_rejected_witness :
  PointAnnotation.add_annotation example_proj summit scenario world0
  = (world0, Raise AttributeError).
Proof.
  apply (proj1 (point_render_rejected example_proj summit scenario world0
                  AttributeError)).
  vm_compute. reflexivity.
Defined.

(** ** Every render: what is drawn, and what a failure leaves *)

Section Outcomes.
Variable Proj : string -> result (float -> float -> float * float).
Variable mesh_effect : Texture -> Mesh -> Mesh.

Lemma legend_render_cases self g w :
  LegendAnnotation.add_annotation self g w = (w, Raise TypeError)
  \/ (exists c,
         draws (Legend self) c
         /\ LegendAnnotation.add_annotation self g w
            = ({| heap := heap w; scene := scene w ++ [c] |}, Ok self)).
Proof.
  unfold LegendAnnotation.add_annotation, bind, keywords, draw, ret, raise.
  destruct (forallb _ _); [right|by left].
  eexists. split; [|done]. done.
Qed.

Lemma outline_render_cases self g w :
  (exists e, OutlineAnnotation.add_annotation mesh_effect self g w
             = (w, Raise e))
  \/ (exists c s m,
         draws (Outline self) c
         /\ OutlineAnnotation.add_annotation mesh_effect self g w
            = ({| heap := m; scene := scene w ++ [c] |}, Ok s)).
Proof.
  destruct (Dataset.getitem (Glacier3DViz.dataset g)
              (OutlineAnnotation.outline_data self)) as [mask|e] eqn:Hmask.
  - destruct (heap w !! Glacier3DViz.topo_mesh g) as [[| |m]|] eqn:Hm.
    3: { right. destruct (outline_render_ok mesh_effect self g w mask m
                            Hmask Hm) as (self' & tex & _ & _ & _ & ->).
         by eexists (add_mesh _ tex), _, _. }
    all: left; exists TypeError;
      unfold OutlineAnnotation.add_annotation,
        OutlineAnnotation.set_outline_texture;
      rewrite Hmask; cbn [rbind];
      unfold bind, lift, OutlineAnnotation.deepcopy; by rewrite Hm.
  - left. exists e. unfold OutlineAnnotation.add_annotation,
      OutlineAnnotation.set_outline_texture.
    by rewrite Hmask.
Qed.

Lemma arrow_render_cases self g w :
  (exists e, ArrowAnnotation.add_annotation self g w = (w, Raise e))
  \/ (exists c,
         draws (Arrow self) c
         /\ (forall d, heap w !! ArrowAnnotation.text_kwargs self
                       <> Some (ODict d))
         /\ ArrowAnnotation.add_annotation self g w
            = ({| heap := heap w; scene := scene w ++ [c] |},
               Raise TypeError))
  \/ (exists c c' s,
         draws (Arrow self) c /\ draws (Arrow self) c'
         /\ ArrowAnnotation.add_annotation self g w
            = ({| heap := heap w; scene := scene w ++ [c; c'] |}, Ok s)).
Proof.
  unfold ArrowAnnotation.add_annotation, bind, lift, the, unpack, keywords,
    draw, ret, raise.
  destruct (ArrowAnnotation.set_arrow_position self g) as [s1|e] eqn:E1;
    [|by left; exists e].
  destruct (ArrowAnnotation.set_arrow_magnitude s1 g) as [s2|e] eqn:E2;
    [|by left; exists e].
  apply set_arrow_position_fields in E1 as [c ->].
  apply set_arrow_magnitude_fields in E2 as [m ->].
  cbn [ArrowAnnotation.arrow_cent ArrowAnnotation.arrow_magnitude
       ArrowAnnotation.with_arrow_cent ArrowAnnotation.with_arrow_magnitude
       ArrowAnnotation.arrow_kwargs ArrowAnnotation.text_kwargs].
  destruct (heap w !! ArrowAnnotation.arrow_kwargs self)
    as [[| akw |]|] eqn:Ea; try (by left; exists TypeError).
  destruct (forallb _ _); [|by left; exists TypeError].
  cbn [heap scene].
  destruct (heap w !! ArrowAnnotation.text_kwargs self)
    as [[| tkw |]|] eqn:Et; cbn [heap scene].
  2: { right. right.
       eexists (add_arrows _ _ _ _), (add_point_labels _ _ _), _.
       rewrite <- app_assoc. by repeat split. }
  all: right; left; eexists (add_arrows _ _ _ _); split; [done|];
    split; [intros d; congruence|done].
Qed.

Local Ltac appended :=
  cbn [fst scene];
  split; [by rewrite ?app_nil_r|];
  split; [cbn; lia|by repeat constructor].

(** X7. A render only appends to the scene, never more than two calls for
    an arrow and one for any other annotation, and every call it appends is
    a primitive of its class: point labels for a point, arrows and point
    labels for an arrow, a mesh for an outline, a legend for a legend. *)
Theorem render_appends a g w :
  exists calls,
    scene (add_annotation Proj mesh_effect a g w).1 = scene w ++ calls
    /\ length calls <= most_calls a
    /\ Forall (draws a) calls.
Proof.
  destruct a as [p|p|p|p]; cbn [add_annotation most_calls];
    rewrite fmapM_world.
  - destruct (point_render_cases Proj p g w) as [[e ->]|(c & s & Hc & ->)];
      [exists []|exists [c]]; appended.
  - destruct (arrow_render_cases p g w)
      as [[e ->]|[(c & Hc & _ & ->)|(c & c' & s & Hc & Hc' & ->)]];
      [exists []|exists [c]|exists [c; c']]; appended.
  - destruct (outline_render_cases p g w) as [[e ->]|(c & s & m & Hc & ->)];
      [exists []|exists [c]]; appended.
  - destruct (legend_render_cases p g w) as [->|(c & Hc & ->)];
      [exists []|exists [c]]; appended.
Qed.

End Outcomes.


(** ** OutlineAnnotation: rendering again, and a missing mask *)

Section OutlineOutcomes.
Variable mesh_effect : Texture -> Mesh -> Mesh.
Import OutlineAnnotation.

(** X9. A mask field that the dataset lacks stops the render of an outline
    with a KeyError that names it; the texture is built before the mesh is
    copied, so no copy has been made and the world is left as it was. *)
Theorem outline_render_missing_mask self g w :
  Dataset.data_vars (Glacier3DViz.dataset g) !! outline_data self = None ->
  add_annotation mesh_effect self g w
  = (w, Raise (KeyError (outline_data self))).
Proof.
  intros Hm. unfold add_annotation, bind, lift, set_outline_texture,
    Dataset.getitem.
  by rewrite Hm.
Qed.

Lemma set_outline_texture_again self g self' :
  set_outline_texture self g = Ok self' ->
  outline_data self' = outline_data self
  /\ set_outline_texture self' g = Ok self'.
Proof.
  unfold set_outline_texture. intros H.
  destruct (Dataset.getitem _ (outline_data self)) as [mask|] eqn:Hm;
    [|discriminate].
  cbn [rbind] in H. simplify_eq. cbn [outline_data outline_color].
  split; [done|]. by rewrite Hm.
Qed.

(** X10. Every render of an outline copies the terrain mesh anew. Two
    renders in a row succeed, return the same annotation, and append two
    mesh calls with the same texture on two distinct new objects, each a
    copy of the terrain mesh acted on by the plotting surface; the terrain
    mesh is still what it was, and the heap holds two objects more. *)
Theorem outline_render_twice self g w mask m :
  Dataset.getitem (Glacier3DViz.dataset g) (outline_data self) = Ok mask ->
  heap w !! Glacier3DViz.topo_mesh g = Some (OMesh m) ->
  exists w1 w2 self' l1 l2 tex,
    add_annotation mesh_effect self g w = (w1, Ok self')
    /\ add_annotation mesh_effect self' g w1 = (w2, Ok self')
    /\ new_calls w w2 = [add_mesh l1 tex; add_mesh l2 tex]
    /\ l1 <> l2
    /\ (l1 ∉ dom (heap w))
    /\ (l2 ∉ dom (heap w))
    /\ heap w2 !! Glacier3DViz.topo_mesh g = Some (OMesh m)
    /\ heap w2 !! l1 = Some (OMesh (mesh_effect tex m))
    /\ heap w2 !! l2 = Some (OMesh (mesh_effect tex m))
    /\ size (heap w2) = S (S (size (heap w))).
Proof.
  intros Hmask Hm.
  destruct (outline_render_ok mesh_effect self g w mask m Hmask Hm)
    as (self' & tex & Hset & Htex & _ & Hr1).
  destruct (set_outline_texture_again _ _ _ Hset) as [Hdata Hset'].
  set (l1 := fresh (dom (heap w))) in *.
  set (h1 := <[l1 := OMesh (mesh_effect tex m)]> (heap w)) in *.
  set (w1 := {| heap := h1; scene := scene w ++ [add_mesh l1 tex] |}) in *.
  assert (heap w !! l1 = None) as Hl1 by apply fresh_loc_None.
  assert (l1 <> Glacier3DViz.topo_mesh g) as Hne by congruence.
  assert (heap w1 !! Glacier3DViz.topo_mesh g = Some (OMesh m)) as Hm1.
  { unfold w1, h1. cbn [heap]. by rewrite lookup_insert_ne. }
  rewrite <- Hdata in Hmask.
  destruct (outline_render_ok mesh_effect self' g w1 mask m Hmask Hm1)
    as (self'' & tex' & Hset'' & Htex' & _ & Hr2).
  assert (self'' = self') as -> by congruence.
  assert (tex' = tex) as -> by congruence.
  set (l2 := fresh (dom (heap w1))) in *.
  assert (heap w1 !! l2 = None) as Hl2 by apply fresh_loc_None.
  assert (l1 <> l2) as Hl12.
  { intros Heq. rewrite <- Heq in Hl2. unfold w1, h1 in Hl2.
    cbn [heap] in Hl2. by rewrite lookup_insert_eq in Hl2. }
  assert (heap w !! l2 = None) as Hl2'.
  { unfold w1, h1 in Hl2. cbn [heap] in Hl2.
    by rewrite lookup_insert_ne in Hl2. }
  assert (l2 <> Glacier3DViz.topo_mesh g) as Hne2 by congruence.
  eexists w1, _, self', l1, l2, tex.
  split; [exact Hr1|]. split; [exact Hr2|].
  unfold new_calls. subst w1 h1. cbn [heap scene] in *.
  split; [by rewrite <- app_assoc, drop_app_length|].
  split; [done|].
  split; [by apply not_elem_of_dom|]. split; [by apply not_elem_of_dom|].
  split; [by rewrite !lookup_insert_ne by done|].
  split; [by rewrite lookup_insert_ne, lookup_insert_eq by done|].
  split; [by rewrite lookup_insert_eq|].
  by rewrite !map_size_insert_None by done.
Qed.
End OutlineOutcomes.

Lemma outline_render_missing_mask_witness :
  OutlineAnnotation.add_annotation activate black_outline scenario world0
  = (world0, Raise (KeyError "glacier_ext")).
Proof.
  apply (outline_render_missing_mask activate black_outline scenario world0).
  vm_compute. reflexivity.
Defined.

Lemma outline_render_twice_witness :
  exists w1 w2 self' l1 l2 tex,
    OutlineAnnotation.add_annotation activate black_outline outlined world0
    = (w1, Ok self')
    /\ OutlineAnnotation.add_annotation activate self' outlined w1
       = (w2, Ok self')
    /\ new_calls world0 w2 = [add_mesh l1 tex; add_mesh l2 tex]
    /\ l1 <> l2
    /\ heap w2 !! 1%positive = Some (OMesh some_mesh)
    /\ size (heap w2) = 3%nat.
Proof.
  destruct (outline_render_twice activate black_outline outlined world0
              (DataArray.mk [1; 3]%nat [0; 1; 0]%float) some_mesh
              eq_refl eq_refl)
    as (w1 & w2 & self' & l1 & l2 & tex & H1 & H2 & Hn & Hd & _ & _ & Hm
        & _ & _ & Hs).
  exists w1, w2, self', l1, l2, tex.
  repeat split; try done.
Defined.

(** ** ArrowAnnotation: the constructor and its dictionaries *)

Section ArrowConstructor.
Variables xp yp zp xd yd zd am : float.
Variable txt : string.
Variable tp : float.

Lemma union_defaults_again (d defaults : gmap string value) :
  d ∪ defaults ∪ defaults = d ∪ defaults.
Proof. by rewrite <- (assoc_L (∪)), (idemp_L (∪)). Qed.

(** X11. A dictionary that has been through the constructor is ready: a
    second arrow built from the same two dictionaries leaves the whole
    world as the first left it, and both arrows refer to the same two
    objects. *)
Theorem arrow_init_reuse xp' yp' zp' xd' yd' zd' am' txt' tp' la lt da dt w :
  heap w !! la = Some (ODict da) ->
  heap w !! lt = Some (ODict dt) ->
  la <> lt ->
  exists w1 first second,
    ArrowAnnotation.__init__ xp yp zp xd yd zd am txt tp
                             (Some la) (Some lt) w
    = (w1, Ok first)
    /\ ArrowAnnotation.__init__ xp' yp' zp' xd' yd' zd' am' txt' tp'
                                (Some la) (Some lt) w1
       = (w1, Ok second)
    /\ ArrowAnnotation.arrow_kwargs first = la
    /\ ArrowAnnotation.arrow_kwargs second = la
    /\ ArrowAnnotation.text_kwargs first = lt
    /\ ArrowAnnotation.text_kwargs second = lt.
Proof.
  intros Ha Ht Hne.
  destruct (arrow_init_spec xp yp zp xd yd zd am txt tp (Some la) (Some lt)
              da dt w) as (la1 & lt1 & Hla & Hlt & _ & H1).
  { cbn. by rewrite Ha. }
  { cbn. by rewrite Ht. }
  { intros l [= ->]. congruence. }
  rewrite (Hla la eq_refl), (Hlt lt eq_refl) in H1. clear Hla Hlt.
  set (h1 := <[lt := ODict (dt ∪ text_defaults)]>
               (<[la := ODict (da ∪ arrow_defaults)]> (heap w))) in *.
  assert (h1 !! la = Some (ODict (da ∪ arrow_defaults))) as Ha1.
  { unfold h1. rewrite lookup_insert_ne by done. apply lookup_insert_eq. }
  assert (h1 !! lt = Some (ODict (dt ∪ text_defaults))) as Ht1.
  { unfold h1. apply lookup_insert_eq. }
  destruct (arrow_init_spec xp' yp' zp' xd' yd' zd' am' txt' tp'
              (Some la) (Some lt) (da ∪ arrow_defaults) (dt ∪ text_defaults)
              {| heap := h1; scene := scene w |})
    as (la2 & lt2 & Hla & Hlt & _ & H2).
  { cbn. by rewrite Ha1. }
  { cbn. by rewrite Ht1. }
  { intros l [= ->]. congruence. }
  rewrite (Hla la eq_refl), (Hlt lt eq_refl) in H2. clear Hla Hlt.
  cbn [heap scene] in H2. rewrite !union_defaults_again in H2.
  rewrite (insert_id h1 la) in H2 by done.
  rewrite (insert_id h1 lt) in H2 by done.
  eexists _, _, _. split; [exact H1|]. split; [exact H2|]. done.
Qed.

(** X12. With both dictionaries omitted the constructor makes two new
    ones, distinct from each other and from every object there was, which
    hold the defaults and nothing else; the objects there were are not
    touched. Arrows built this way share no dictionary. *)
Theorem arrow_init_omitted w :
  exists w1 self,
    ArrowAnnotation.__init__ xp yp zp xd yd zd am txt tp None None w
    = (w1, Ok self)
    /\ (ArrowAnnotation.arrow_kwargs self ∉ dom (heap w))
    /\ (ArrowAnnotation.text_kwargs self ∉ dom (heap w))
    /\ ArrowAnnotation.arrow_kwargs self <> ArrowAnnotation.text_kwargs self
    /\ heap w1 !! ArrowAnnotation.arrow_kwargs self
       = Some (ODict arrow_defaults)
    /\ heap w1 !! ArrowAnnotation.text_kwargs self
       = Some (ODict text_defaults)
    /\ heap w ⊆ heap w1
    /\ scene w1 = scene w.
Proof.
  pose proof (fresh_loc_None (heap w)) as Hfa.
  set (la := fresh (dom (heap w))) in *.
  pose proof (fresh_loc_None (<[la := ODict arrow_defaults]> (heap w)))
    as Hft.
  set (lt := fresh (dom (<[la := ODict arrow_defaults]> (heap w)))) in *.
  assert (la <> lt) as Hne.
  { intros Heq. rewrite <- Heq in Hft. by rewrite lookup_insert_eq in Hft. }
  rewrite lookup_insert_ne in Hft by done.
  exists {| heap := <[lt := ODict text_defaults]>
                      (<[la := ODict arrow_defaults]> (heap w));
            scene := scene w |},
         (ArrowAnnotation.mk xp yp zp txt tp None [[xd; yd; zd]] am None
                             la lt).
  cbn [ArrowAnnotation.arrow_kwargs ArrowAnnotation.text_kwargs heap scene].
  split.
  { unfold ArrowAnnotation.__init__, bind, alloc, ret.
    repeat (erewrite setdefault_dict
              by (cbn [heap]; apply lookup_insert_eq); cbn [heap scene]).
    fold la.
    assert (forall d1 d2 d3,
               <[la := ODict d3]>
                 (<[la := ODict d2]> (<[la := ODict d1]> (heap w)))
               = <[la := ODict d3]> (heap w)) as Hins
        by (intros; by rewrite !insert_insert_eq).
    rewrite !Hins, arrow_setdefaults, (left_id_L ∅ (∪)). fold lt.
    by rewrite !insert_insert_eq, text_setdefaults, (left_id_L ∅ (∪)). }
  split; [by apply not_elem_of_dom|]. split; [by apply not_elem_of_dom|].
  split; [done|].
  split; [by rewrite lookup_insert_ne, lookup_insert_eq|].
  split; [by rewrite lookup_insert_eq|].
  split; [|done].
  etrans; [by apply (insert_subseteq _ la (ODict arrow_defaults))|].
  apply insert_subseteq. by rewrite lookup_insert_ne.
Qed.
End ArrowConstructor.

Lemma arrow_init_reuse_witness :
  exists w1 first second,
    ArrowAnnotation.__init__ 0.5 0.5 0.5 0 1 0 0.1 "N" 1.3
                             (Some 2%positive) (Some 3%positive) caller_world
    = (w1, Ok first)
    /\ ArrowAnnotation.__init__ 1 0 0 1 0 0 0.2 "E" 1
                                (Some 2%positive) (Some 3%positive) w1
       = (w1, Ok second)
    /\ ArrowAnnotation.arrow_kwargs first
       = ArrowAnnotation.arrow_kwargs second.
Proof.
  destruct (arrow_init_reuse 0.5 0.5 0.5 0 1 0 0.1 "N" 1.3
              1 0 0 1 0 0 0.2 "E" 1 2%positive 3%positive
              {[ "color" := VStr "red" ]}
              {[ "font_size" := VInt 12; "bold" := VBool true ]}
              caller_world)%float
    as (w1 & first & second & H1 & H2 & Ha1 & Ha2 & _).
  - vm_compute. reflexivity.
  - vm_compute. reflexivity.
  - discriminate.
  - exists w1, first, second. split; [exact H1|]. split; [exact H2|].
    by rewrite Ha1, Ha2.
Defined.

(** ** What a computation keeps *)

Section Keeps.
Context (R : gmap loc obj -> gmap loc obj -> Prop).
Context (R_refl : forall h, R h h).
Context (R_trans : forall h1 h2 h3, R h1 h2 -> R h2 h3 -> R h1 h3).

Lemma keeps_ret {A} (a : A) : keeps R (ret a).
Proof. by intros w. Qed.

Lemma keeps_raise {A} e : keeps R (@raise A e).
Proof. by intros w. Qed.

Lemma keeps_lift {A} (r : result A) : keeps R (lift r).
Proof. by intros w. Qed.

Lemma keeps_bind {A B} (m : M A) (k : A -> M B) :
  keeps R m -> (forall a, keeps R (k a)) -> keeps R (bind m k).
Proof.
  intros Hm Hk w. unfold bind. destruct (Hm w) as [Hs Hh].
  destruct (m w) as [w1 [a|e]]; cbn [fst] in *; [|done].
  destruct (Hk a w1) as [Hs' Hh']. split; [congruence|].
  by eapply R_trans.
Qed.
End Keeps.

Lemma dicts_grow_refl h : dicts_grow h h.
Proof. intros l [vs|d|m] Hl; [done| |done]. by exists d. Qed.

Lemma dicts_grow_trans h1 h2 h3 :
  dicts_grow h1 h2 -> dicts_grow h2 h3 -> dicts_grow h1 h3.
Proof.
  intros H12 H23 l o Hl. specialize (H12 l o Hl).
  destruct o as [vs|d|m]; [by apply (H23 l (OList vs))| |
                            by apply (H23 l (OMesh m))].
  destruct H12 as (d' & Hl' & Hd).
  destruct (H23 l (ODict d') Hl') as (d'' & Hl'' & Hd').
  exists d''. split; [done|]. by etrans.
Qed.

Lemma keeps_alloc o : keeps dicts_grow (alloc o).
Proof.
  intros w. split; [done|]. unfold alloc. cbn [fst heap].
  intros l o' Hl.
  assert (fresh (dom (heap w)) <> l) as Hne.
  { intros <-. by rewrite fresh_loc_None in Hl. }
  destruct o' as [vs|d|m]; rewrite ?lookup_insert_ne by done; [done| |done].
  by exists d.
Qed.

Lemma keeps_setdefault l k v : keeps dicts_grow (setdefault l k v).
Proof.
  intros w. unfold setdefault, store.
  destruct (heap w !! l) as [[vs|d|m]|] eqn:Hl; cbn [fst heap scene];
    try (split; [done|apply dicts_grow_refl]).
  split; [done|]. intros l' o Hl'.
  destruct (decide (l' = l)) as [->|Hne].
  - simplify_eq. exists (dict_setdefault k v d).
    rewrite lookup_insert_eq. split; [done|].
    rewrite dict_setdefault_union. apply map_union_subseteq_l.
  - destruct o as [vs|d'|m]; rewrite ?lookup_insert_ne by done; [done| |done].
    exists d'. by rewrite ?lookup_insert_ne.
Qed.

(** ** ArrowAnnotation: what the constructor never does *)

Section ArrowConstructorFrame.
Variables xp yp zp xd yd zd am : float.
Variable txt : string.
Variable tp : float.

(** X13. Whatever its arguments and whether it succeeds or fails, the
    constructor of an arrow draws nothing, loses no object, changes no
    object that is not a dictionary, and never removes a key from a
    dictionary or changes its value: a dictionary only gains keys. *)
Theorem arrow_init_frame akw tkw :
  keeps dicts_grow
        (ArrowAnnotation.__init__ xp yp zp xd yd zd am txt tp akw tkw).
Proof.
  unfold ArrowAnnotation.__init__.
  repeat first
    [ apply (keeps_bind _ dicts_grow_trans); [|intros ?]
    | apply keeps_setdefault
    | apply (keeps_ret _ dicts_grow_refl)
    | match goal with
      | |- keeps _ (match ?o with _ => _ end) => destruct o
      end
    | apply keeps_alloc ].
Qed.

(** X14. An argument that refers to an object without [setdefault], a list
    say, stops the constructor with an AttributeError. For the arrow
    options this leaves the world as it was; for the text options the
    arrow dictionary has by then received its defaults, and keeps them. *)
Theorem arrow_init_not_a_dict :
  (forall l tkw w,
      (forall d, heap w !! l <> Some (ODict d)) ->
      ArrowAnnotation.__init__ xp yp zp xd yd zd am txt tp (Some l) tkw w
      = (w, Raise AttributeError))
  /\ (forall akw lt da o w,
         caller_dict w akw = Some da ->
         heap w !! lt = Some o ->
         (forall d, o <> ODict d) ->
         exists la,
           (forall l, akw = Some l -> la = l)
           /\ ArrowAnnotation.__init__ xp yp zp xd yd zd am txt tp
                                       akw (Some lt) w
              = ({| heap := <[la := ODict (da ∪ arrow_defaults)]> (heap w);
                    scene := scene w |},
                 Raise AttributeError)).
Proof.
  split.
  - intros l tkw w Hl.
    unfold ArrowAnnotation.__init__, bind, ret, setdefault.
    destruct (heap w !! l) as [[vs|d|m]|] eqn:E; try done.
    by destruct (Hl d).
  - intros akw lt da o w Ha Hlt Ho.
    destruct (kwargs_defaults
                (fun l => bind (setdefault l "show_scalar_bar" (VBool false))
                            (fun _ => setdefault l "color"
                               (VSeq [VFloat 0.2; VFloat 0.2; VFloat 0.2])))
                (fun d => d ∪ arrow_defaults) akw da w)
      as (la & Hla & Hfa & Hrun);
      [intros; by apply arrow_kwargs_defaults | exact Ha | ].
    exists la. split; [done|].
    assert (la <> lt) as Hne.
    { intros ->. destruct akw as [l|].
      - rewrite (Hla l eq_refl) in *. cbn in Ha. rewrite Hlt in Ha.
        destruct o; simplify_eq. by destruct (Ho da).
      - apply (Hfa eq_refl), elem_of_dom. by eexists. }
    specialize (Hrun _
      (fun la =>
         bind (ret lt)
              (fun l =>
                 bind (bind (setdefault l "shape" VNone)
                         (fun _ =>
                            bind (setdefault l "show_points" (VBool false))
                                 (fun _ => setdefault l "font_size"
                                             (VInt 30))))
                      (fun _ =>
                         ret (ArrowAnnotation.mk xp yp zp txt tp None
                                [[xd; yd; zd]] am None la l))))).
    etrans; [etrans; [|exact Hrun]|].
    + clear. unfold ArrowAnnotation.__init__, bind.
      repeat match goal with
             | |- context [match ?m ?w with _ => _ end] =>
                 destruct (m w) as [? [?|?]]
             end; reflexivity.
    + unfold bind, ret, setdefault. cbn [heap].
      rewrite lookup_insert_ne by done. rewrite Hlt.
      destruct o as [vs|d|m]; try done. by destruct (Ho d).
Qed.
End ArrowConstructorFrame.

Lemma arrow_init_not_a_dict_witness :
  ArrowAnnotation.__init__ 0.5 0.5 0.5 0 1 0 0.1 "N" 1.3
                           (Some 5%positive) None labels_world
  = (labels_world, Raise AttributeError)
  /\ exists w1,
      ArrowAnnotation.__init__ 0.5 0.5 0.5 0 1 0 0.1 "N" 1.3
                               (Some 2%positive) (Some 1%positive)
                               caller_world
      = (w1, Raise AttributeError)
      /\ heap w1 !! 2%positive
         = Some (ODict ({[ "color" := VStr "red" ]} ∪ arrow_defaults)).
Proof.
  destruct (arrow_init_not_a_dict 0.5 0.5 0.5 0 1 0 0.1 "N" 1.3)%float
    as [H1 H2].
  split.
  - apply H1. intros d. vm_compute. discriminate.
  - destruct (H2 (Some 2%positive) 1%positive {[ "color" := VStr "red" ]}
                (OMesh some_mesh) caller_world)
      as (la & Hla & Hinit).
    + vm_compute. reflexivity.
    + vm_compute. reflexivity.
    + discriminate.
    + rewrite (Hla 2%positive eq_refl) in Hinit.
      eexists. split; [exact Hinit|]. cbn [heap]. apply lookup_insert_eq.
Defined.

(** ** LegendAnnotation: a constructor that stops half-way *)

Section LegendStops.
Variable check_color : value -> result RGBA.

(** The loop over the good label lists at the front of the list. *)
Lemma for_each_at_prefix l (pre : list value)
    (good : list (loc * list value * RGBA)) (suffix : list value) n w :
  heap w !! l = Some (OList (pre ++ (VRef <$> good.*1.*1) ++ suffix)) ->
  NoDup (l :: good.*1.*1) ->
  Forall (entry_ok check_color (heap w)) good ->
  LegendAnnotation.for_each_at check_color l (length pre) (length good + n) w
  = LegendAnnotation.for_each_at check_color l (length pre + length good) n
      {| heap := foldl normalized (heap w) good; scene := scene w |}.
Proof.
  revert pre w. induction good as [|e good IH]; intros pre w Hl Hnd Hok.
  { cbn [length foldl]. rewrite Nat.add_0_r. by destruct w. }
  cbn [length Nat.add LegendAnnotation.for_each_at foldl]. rewrite Hl.
  rewrite !fmap_cons.
  rewrite lookup_app_r by done. rewrite Nat.sub_diag.
  cbn [lookup list_lookup app].
  apply Forall_cons in Hok as [(He & col & Hcol & Hc) Hok].
  rewrite !fmap_cons in Hnd.
  apply NoDup_cons in Hnd as [Hl' Hnd].
  apply not_elem_of_cons in Hl' as [Hle Hl'].
  apply NoDup_cons in Hnd as [He' Hnd].
  unfold bind at 1, LegendAnnotation.normalize at 1.
  rewrite He, Hcol, Hc. unfold store.
  specialize (IH (pre ++ [VRef e.1.1])
                {| heap := normalized (heap w) e; scene := scene w |}).
  rewrite length_app, Nat.add_1_r in IH. cbn [length heap scene] in IH.
  rewrite <- Nat.add_succ_comm. apply IH.
  - unfold normalized. rewrite lookup_insert_ne by done.
    rewrite Hl, fmap_cons. by rewrite <- app_assoc.
  - by apply NoDup_cons.
  - apply Forall_forall. intros e1 He1.
    rewrite Forall_forall in Hok. destruct (Hok e1 He1) as [H1 H2].
    split; [|done]. unfold normalized. rewrite lookup_insert_ne; [done|].
    intros Heq. apply He'. rewrite Heq.
    apply list_elem_of_fmap. exists e1.1. split; [done|].
    apply list_elem_of_fmap. by exists e1.
Qed.

(** The constructor stops at the first label the loop body refuses, with
    the label lists before it overwritten. *)
Lemma legend_init_stops l (good : list (loc * list value * RGBA)) bad rest
    kwargs w e :
  heap w !! l = Some (OList ((VRef <$> good.*1.*1) ++ bad :: rest)) ->
  NoDup (l :: good.*1.*1) ->
  Forall (entry_ok check_color (heap w)) good ->
  (let w1 := {| heap := foldl normalized (heap w) good; scene := scene w |} in
   LegendAnnotation.normalize check_color bad w1 = (w1, Raise e)) ->
  LegendAnnotation.__init__ check_color (VRef l) kwargs w
  = ({| heap := foldl normalized (heap w) good; scene := scene w |},
     Raise e).
Proof.
  intros Hl Hnd Hok Hbad. cbv zeta in Hbad.
  unfold LegendAnnotation.__init__, bind at 1,
    LegendAnnotation.check_labels.
  rewrite Hl, length_app, !length_fmap. cbn [length].
  pose proof (for_each_at_prefix l [] good (bad :: rest) (S (length rest)) w
                Hl Hnd Hok) as Hp.
  cbn [length Nat.add] in Hp. rewrite Hp. clear Hp.
  cbn [length Nat.add LegendAnnotation.for_each_at heap].
  rewrite foldl_normalized_ne
    by (apply NoDup_cons in Hnd; by destruct Hnd).
  rewrite Hl.
  rewrite lookup_app_r by (by rewrite !length_fmap).
  rewrite !length_fmap, Nat.sub_diag. cbn [lookup list_lookup].
  unfold bind. by rewrite Hbad.
Qed.

(** X15. When [check_color] rejects the colour of a label list, the
    constructor stops with that error, but not without a trace: the label
    lists before it have their colours overwritten already, while the
    rejected one and every other object are what they were. *)
Theorem legend_init_rejected_color l
    (good : list (loc * list value * RGBA)) lb vs col rest kwargs w e :
  heap w !! l = Some (OList ((VRef <$> good.*1.*1) ++ VRef lb :: rest)) ->
  NoDup (l :: lb :: good.*1.*1) ->
  Forall (entry_ok check_color (heap w)) good ->
  heap w !! lb = Some (OList vs) ->
  vs !! 1%nat = Some col ->
  check_color col = Raise e ->
  exists w1,
    LegendAnnotation.__init__ check_color (VRef l) kwargs w = (w1, Raise e)
    /\ (forall g, g ∈ good ->
                  heap w1 !! g.1.1
                  = Some (OList (<[1%nat := VRGBA g.2]> g.1.2)))
    /\ (forall l', l' ∉ good.*1.*1 -> heap w1 !! l' = heap w !! l')
    /\ scene w1 = scene w.
Proof.
  intros Hl Hnd Hok Hlb Hcol Hc.
  apply NoDup_cons in Hnd as [Hl' Hnd].
  apply not_elem_of_cons in Hl' as [Hllb Hl'].
  apply NoDup_cons in Hnd as [Hlb' Hnd].
  eexists. split.
  - apply (legend_init_stops l good (VRef lb) rest); try done.
    + by apply NoDup_cons.
    + cbv zeta. unfold LegendAnnotation.normalize. cbn [heap].
      rewrite foldl_normalized_ne by done. by rewrite Hlb, Hcol, Hc.
  - cbn [heap scene]. split; [|split; [|done]].
    + intros g Hg. by apply foldl_normalized_eq.
    + intros l'' Hl''. by apply foldl_normalized_ne.
Qed.

(** X16. A label must be a list of two entries at least: a label that is
    a tuple has its colour checked and then refuses the assignment with a
    TypeError, and a label list with fewer than two entries gives an
    IndexError. Either stops the constructor after the label lists before
    it were overwritten. *)
Theorem legend_init_bad_label l (good : list (loc * list value * RGBA))
    rest kwargs w :
  NoDup (l :: good.*1.*1) ->
  Forall (entry_ok check_color (heap w)) good ->
  let w1 := {| heap := foldl normalized (heap w) good; scene := scene w |} in
  (forall vs col c,
      heap w !! l = Some (OList ((VRef <$> good.*1.*1) ++ VSeq vs :: rest)) ->
      vs !! 1%nat = Some col ->
      check_color col = Ok c ->
      LegendAnnotation.__init__ check_color (VRef l) kwargs w
      = (w1, Raise TypeError))
  /\ (forall lb vs,
         heap w !! l
         = Some (OList ((VRef <$> good.*1.*1) ++ VRef lb :: rest)) ->
         lb ∉ good.*1.*1 ->
         heap w !! lb = Some (OList vs) ->
         length vs < 2 ->
         LegendAnnotation.__init__ check_color (VRef l) kwargs w
         = (w1, Raise IndexError)).
Proof.
  intros Hnd Hok w1. split.
  - intros vs col c Hl Hcol Hc.
    apply (legend_init_stops l good (VSeq vs) rest); try done.
    cbv zeta. unfold LegendAnnotation.normalize. by rewrite Hcol, Hc.
  - intros lb vs Hl Hlb' Hlb Hlen.
    apply (legend_init_stops l good (VRef lb) rest); try done.
    cbv zeta. unfold LegendAnnotation.normalize. cbn [heap].
    rewrite foldl_normalized_ne by done. rewrite Hlb.
    by rewrite lookup_ge_None_2 by lia.
Qed.
End LegendStops.

Ltac one_good_entry :=
  apply Forall_cons; split; [|apply Forall_nil];
  split; [vm_compute; reflexivity|];
  eexists; split; vm_compute; reflexivity.

Lemma legend_init_rejected_color_witness :
  exists w1,
    LegendAnnotation.__init__ palette (VRef 2%positive) ∅ rejected_world
    = (w1, Raise ValueError)
    /\ heap w1 !! 3%positive
       = Some (OList [VStr "ice"; VRGBA (mkRGBA x00 x00 xff xff)])
    /\ heap w1 !! 4%positive = Some (OList [VStr "rock"; VStr "granite"]).
Proof.
  destruct (legend_init_rejected_color palette 2%positive [ice] 4%positive
              [VStr "rock"; VStr "granite"] (VStr "granite") [] ∅
              rejected_world ValueError)
    as (w1 & Hinit & Hgood & Hother & _).
  - vm_compute. reflexivity.
  - apply (bool_decide_unpack _). vm_compute. reflexivity.
  - one_good_entry.
  - vm_compute. reflexivity.
  - reflexivity.
  - reflexivity.
  - exists w1. split; [exact Hinit|]. split.
    + apply (Hgood ice). apply list_elem_of_singleton. reflexivity.
    + rewrite Hother; [by vm_compute|].
      apply (bool_decide_unpack _). vm_compute. reflexivity.
Defined.

Lemma legend_init_bad_label_witness :
  (exists w1,
      LegendAnnotation.__init__ palette (VRef 2%positive) ∅ tuple_world
      = (w1, Raise TypeError)
      /\ heap w1 !! 3%positive
         = Some (OList [VStr "ice"; VRGBA (mkRGBA x00 x00 xff xff)]))
  /\ (exists w1,
         LegendAnnotation.__init__ palette (VRef 2%positive) ∅ short_world
         = (w1, Raise IndexError)).
Proof.
  split.
  - destruct (legend_init_bad_label palette 2%positive [ice] [] ∅ tuple_world)
      as [Htuple _].
    + apply (bool_decide_unpack _). vm_compute. reflexivity.
    + one_good_entry.
    + eexists. split.
      * apply (Htuple [VStr "rock"; VStr "black"] (VStr "black")
                      (mkRGBA x00 x00 x00 xff)); vm_compute; reflexivity.
      * vm_compute. reflexivity.
  - destruct (legend_init_bad_label palette 2%positive [ice] [] ∅ short_world)
      as [_ Hshort].
    + apply (bool_decide_unpack _). vm_compute. reflexivity.
    + one_good_entry.
    + eexists.
      apply (Hshort 4%positive [VStr "rock"]).
      * vm_compute. reflexivity.
      * apply (bool_decide_unpack _). vm_compute. reflexivity.
      * vm_compute. reflexivity.
      * cbn. lia.
Defined.

(** ** LegendAnnotation: what the constructor never does *)

Lemma lists_entry1_refl h : lists_entry1 h h.
Proof.
  split; [done|]. intros l [vs|d|m] Hl; [|done|done]. by exists vs.
Qed.

Lemma lists_entry1_trans h1 h2 h3 :
  lists_entry1 h1 h2 -> lists_entry1 h2 h3 -> lists_entry1 h1 h3.
Proof.
  intros [Hd12 H12] [Hd23 H23]. split; [congruence|].
  intros l o Hl. specialize (H12 l o Hl).
  destruct o as [vs|d|m]; [|by apply (H23 l (ODict d))|
                            by apply (H23 l (OMesh m))].
  destruct H12 as (vs' & Hl' & Hlen & Hvs).
  destruct (H23 l (OList vs') Hl') as (vs'' & Hl'' & Hlen' & Hvs').
  exists vs''. split; [done|]. split; [congruence|].
  intros i Hi. by rewrite Hvs', Hvs.
Qed.

Section LegendFrame.
Variable check_color : value -> result RGBA.

Lemma keeps_normalize label :
  keeps lists_entry1 (LegendAnnotation.normalize check_color label).
Proof.
  intros w. unfold LegendAnnotation.normalize, store.
  repeat case_match; cbn [fst heap scene];
    try (split; [done|apply lists_entry1_refl]).
  subst. split; [done|]. split.
  - rewrite dom_insert_L. apply (anti_symm (⊆)); [|set_solver].
    apply union_least; [|done].
    apply singleton_subseteq_l, elem_of_dom. by eexists.
  - intros l' o Hl'.
    match goal with
    | H : heap w !! ?l = Some (OList ?vs) |- _ =>
        destruct (decide (l' = l)) as [->|Hne];
        [rewrite H in Hl'; simplify_eq; rewrite lookup_insert_eq;
         eexists; split; [done|]; split; [by rewrite length_insert|];
         intros i Hi; by rewrite list_lookup_insert_ne
        |]
    end.
    destruct o as [vs'|d|m]; rewrite ?lookup_insert_ne by done;
      [|done|done].
    exists vs'. by rewrite ?lookup_insert_ne.
Qed.

Lemma keeps_for_each ls :
  keeps lists_entry1 (LegendAnnotation.for_each check_color ls).
Proof.
  induction ls as [|label ls IH]; cbn [LegendAnnotation.for_each].
  - apply (keeps_ret _ lists_entry1_refl).
  - apply (keeps_bind _ lists_entry1_trans); [apply keeps_normalize|done].
Qed.

Lemma keeps_for_each_at l i n :
  keeps lists_entry1 (LegendAnnotation.for_each_at check_color l i n).
Proof.
  revert i. induction n as [|n IH]; intros i w;
    cbn [LegendAnnotation.for_each_at].
  - split; [done|apply lists_entry1_refl].
  - repeat case_match; try (split; [done|apply lists_entry1_refl]).
    apply (keeps_bind _ lists_entry1_trans); [apply keeps_normalize|].
    intros _. apply IH.
Qed.

(** X17. Whatever its arguments and whether it succeeds or fails, the
    constructor of a legend draws nothing, makes and loses no object, and
    writes to lists only, and there to the entry 1 only: every list keeps
    its length and its other entries, and every dictionary and mesh is
    what it was. *)
Theorem legend_init_frame labels kwargs :
  keeps lists_entry1 (LegendAnnotation.__init__ check_color labels kwargs).
Proof.
  unfold LegendAnnotation.__init__.
  apply (keeps_bind _ lists_entry1_trans);
    [|intros; apply (keeps_ret _ lists_entry1_refl)].
  intros w. unfold LegendAnnotation.check_labels.
  repeat case_match; try (split; [done|apply lists_entry1_refl]);
    first [apply keeps_for_each_at | apply keeps_for_each].
Qed.
End LegendFrame.

(** ** ArrowAnnotation: an axis without extent *)

Section Degenerate.
Import ArrowAnnotation.
Local Open Scope float_scope.

Lemma sub_diag_finite v : is_finite v = true -> v - v = 0.
Proof.
  intros Hv. apply Prim2SF_inj. revert Hv.
  rewrite Binary64.is_finite_spec, sub_spec.
  change (Prim2SF 0) with (S754_zero false).
  destruct (Prim2SF v) as [s|s| |s m e]; try discriminate; intros _.
  - by destruct s.
  - unfold SF64sub, SFsub. by rewrite Z.sub_diag.
Qed.

Lemma finite_not_nan v : is_finite v = true -> is_nan v = false.
Proof.
  rewrite Binary64.is_finite_spec, Binary64.is_nan_spec.
  by destruct (Prim2SF v).
Qed.

Lemma eqb_zero v s : Prim2SF v = S754_zero s -> (v =? 0) = true.
Proof.
  intros Hv. rewrite FloatAxioms.eqb_spec, Hv.
  change (Prim2SF 0) with (S754_zero false). reflexivity.
Qed.

(** X18. On an axis whose minimum and maximum are the same finite number,
    the anchor compares equal to that number for every finite position
    fraction; and when this is the y axis, the magnitude of the arrow
    compares equal to zero for every finite relative magnitude. *)
Theorem degenerate_extent self g v :
  extent g (Glacier3DViz.y g) = Ok (v, v) ->
  is_finite v = true ->
  is_finite (arrow_magnitude_relative self) = true ->
  (forall f, is_finite f = true -> (get_position v v f =? v) = true)
  /\ exists self' mag,
      set_arrow_magnitude self g = Ok self'
      /\ arrow_magnitude self' = Some mag
      /\ (mag =? 0) = true.
Proof.
  intros Hy Hv Hrel. split.
  - intros f Hf. unfold get_position. rewrite sub_diag_finite by done.
    destruct (Binary64.mul_0_r_finite f Hf) as [s Hs].
    eapply Binary64.add_zero_eqb; [by apply finite_not_nan|exact Hs].
  - eexists _, _. split; [by apply set_arrow_magnitude_extent|].
    split; [reflexivity|].
    rewrite sub_diag_finite by done.
    destruct (Binary64.mul_0_l_finite _ Hrel) as [s Hs].
    by eapply eqb_zero.
Qed.
End Degenerate.

Lemma degenerate_extent_witness :
  (ArrowAnnotation.get_position 20 20 0.5 =? 20)%float = true
  /\ exists self',
      ArrowAnnotation.set_arrow_magnitude scenario_arrow single_row = Ok self'
      /\ ArrowAnnotation.arrow_magnitude self' = Some 0%float.
Proof.
  destruct (degenerate_extent scenario_arrow single_row 20%float
              eq_refl eq_refl eq_refl) as [Hpos (self' & mag & Hs & Hm & _)].
  split; [by apply Hpos|].
  exists self'. split; [exact Hs|]. rewrite Hm.
  vm_compute in Hs. simplify_eq. vm_compute in Hm. by simplify_eq.
Defined.

(** ** LegendAnnotation: one label list given twice *)

Section LegendTwice.
Variable check_color : value -> result RGBA.

End LegendTwice.

